(** * jsScraper: a shallow embedding of [jsScraper.py] and its properties

    The development follows the source file top-down: the Python built-ins
    and library calls the program relies on ([str] methods, [re.search],
    [hashlib.sha256], [urllib.parse]), then the program's own functions under
    their own names, then the theorems.

    Conventions.
    - A Python [str] is a [string]: one [ascii] per code point, so the model
      covers text whose code points are below 256.  On that range
      [str.lower] and [str.encode('utf-8')] are modelled exactly.
    - A Python [bytes] value is a [list byte].
    - A Python [int] is a [Z]; the three skip counters, which start at 0 and
      only ever grow by one, are [nat].
    - [set] is stdpp's [gset]; the calls of [log.debug] and [log.info] are
      left out, [log.error] and the [errors] list are kept. *)

From Stdlib Require Import ZArith NArith List String Ascii Bool Lia.
From Stdlib.Strings Require Import Byte.
From stdpp Require Import base decidable option list gmap sets strings.

Local Open Scope string_scope.
Local Open Scope Z_scope.

Set Warnings "-clear-no-such-hyp".

(** ** Python [str] methods *)

Module Py.

Definition code (c : ascii) : N := N_of_ascii c.

Definition newline : ascii := ascii_of_nat 10.
Definition dquote : ascii := ascii_of_nat 34.

(** [c.lower()] for a code point below 256: the ASCII capitals and the
    Latin-1 capitals U+00C0..U+00DE (U+00D7, the multiplication sign, apart)
    move up by 32; nothing else changes. *)
Definition lower_char (c : ascii) : ascii :=
  let n := code c in
  if ((65 <=? n) && (n <=? 90))%N then ascii_of_N (n + 32)
  else if ((192 <=? n) && (n <=? 222) && negb (n =? 215))%N then ascii_of_N (n + 32)
  else c.

Fixpoint lower (s : string) : string :=
  match s with
  | EmptyString => EmptyString
  | String c s' => String (lower_char c) (lower s')
  end.

(** [s.startswith(p)] *)
Fixpoint startswith (p s : string) : bool :=
  match p, s with
  | EmptyString, _ => true
  | String a p', String b s' => Ascii.eqb a b && startswith p' s'
  | String _ _, EmptyString => false
  end.

(** [s[n:]] for [n >= 0] *)
Fixpoint drop (n : nat) (s : string) : string :=
  match n, s with
  | O, _ => s
  | S n', String _ s' => drop n' s'
  | S _, EmptyString => EmptyString
  end.

(** [s[:n]] for [n >= 0] *)
Fixpoint take (n : nat) (s : string) : string :=
  match n, s with
  | O, _ => EmptyString
  | S n', String c s' => String c (take n' s')
  | S _, EmptyString => EmptyString
  end.

Definition rev (s : string) : string :=
  string_of_list_ascii (List.rev (list_ascii_of_string s)).

(** [s.endswith(p)] *)
Definition endswith (p s : string) : bool := startswith (rev p) (rev s).

(** [c in s] for a single character [c] *)
Fixpoint mem (c : ascii) (s : string) : bool :=
  match s with
  | EmptyString => false
  | String a s' => Ascii.eqb a c || mem c s'
  end.

(** [s.lstrip(chars)], [s.rstrip(chars)], [s.strip(chars)] *)
Fixpoint lstrip (chars : string) (s : string) : string :=
  match s with
  | EmptyString => EmptyString
  | String c s' => if mem c chars then lstrip chars s' else s
  end.

Fixpoint rstrip (chars : string) (s : string) : string :=
  match s with
  | EmptyString => EmptyString
  | String c s' =>
      match rstrip chars s' with
      | EmptyString => if mem c chars then EmptyString else String c EmptyString
      | rest => String c rest
      end
  end.

Definition strip (chars : string) (s : string) : string :=
  rstrip chars (lstrip chars s).

(** [s.replace(c, "")] for a single character [c] *)
Fixpoint remove (c : ascii) (s : string) : string :=
  match s with
  | EmptyString => EmptyString
  | String a s' => if Ascii.eqb a c then remove c s' else String a (remove c s')
  end.

(** [i = s.find(c)] as the pair [s[:i]], [s[i+1:]]: [None] when [c] does
    not occur ([find] returns -1). *)
Fixpoint cut (c : ascii) (s : string) : option (string * string) :=
  match s with
  | EmptyString => None
  | String a s' =>
      if Ascii.eqb a c then Some (EmptyString, s')
      else match cut c s' with
           | Some (l, r) => Some (String a l, r)
           | None => None
           end
  end.

(** The split of [s] before the first character that satisfies [p]: the
    second part starts with that character, or is empty. *)
Fixpoint break (p : ascii -> bool) (s : string) : string * string :=
  match s with
  | EmptyString => (EmptyString, EmptyString)
  | String a s' =>
      if p a then (EmptyString, s)
      else let (l, r) := break p s' in (String a l, r)
  end.

Fixpoint all (p : ascii -> bool) (s : string) : bool :=
  match s with
  | EmptyString => true
  | String a s' => p a && all p s'
  end.

(** [s.encode('utf-8')] for code points below 256: one byte below 128, two
    bytes from 128 on. *)
Definition encode_char (c : ascii) : list byte :=
  let n := code c in
  if (n <? 128)%N then [byte_of_ascii c]
  else [byte_of_ascii (ascii_of_N (192 + N.shiftr n 6));
        byte_of_ascii (ascii_of_N (128 + N.land n 63))].

Fixpoint encode_utf8 (s : string) : list byte :=
  match s with
  | EmptyString => []
  | String c s' => encode_char c ++ encode_utf8 s'
  end.

(** [len(b)] *)
Definition len {A} (l : list A) : Z := Z.of_nat (List.length l).

End Py.

(** ** [re.search] on the patterns of the two rule lists

    The rules use literals, escaped punctuation, [.], [$], [?], [|] and
    non-capturing groups; the parser takes the pattern text exactly as the
    raw string literals of the source spell it and rejects anything else. *)

Module Re.

Inductive regex : Type :=
| Empty
| Lit (c : ascii)
| AnyChar
| EndAnchor
| Cat (r1 r2 : regex)
| Alt (r1 r2 : regex)
| Opt (r : regex).

Definition is_alnum (c : ascii) : bool :=
  let n := Py.code c in
  (((48 <=? n) && (n <=? 57)) || ((65 <=? n) && (n <=? 90)) ||
   ((97 <=? n) && (n <=? 122)))%N.

(** Characters that are operators of the pattern language. *)
Definition is_meta (c : ascii) : bool := Py.mem c ".^$*+?{}[]\|()".

Fixpoint parse_alt (n : nat) (s : string) : option (regex * string) :=
  match n with
  | O => None
  | S n' =>
      match parse_seq n' s with
      | Some (r1, String "|" rest) =>
          match parse_alt n' rest with
          | Some (r2, rest') => Some (Alt r1 r2, rest')
          | None => None
          end
      | other => other
      end
  end
with parse_seq (n : nat) (s : string) : option (regex * string) :=
  match n with
  | O => None
  | S n' =>
      match s with
      | EmptyString => Some (Empty, s)
      | String "|" _ => Some (Empty, s)
      | String ")" _ => Some (Empty, s)
      | _ =>
          match parse_atom n' s with
          | Some (a, rest) =>
              let '(a', rest') :=
                match rest with
                | String "?" r => (Opt a, r)
                | _ => (a, rest)
                end in
              match parse_seq n' rest' with
              | Some (r, rest'') => Some (Cat a' r, rest'')
              | None => None
              end
          | None => None
          end
      end
  end
with parse_atom (n : nat) (s : string) : option (regex * string) :=
  match n with
  | O => None
  | S n' =>
      match s with
      | String "\" (String c rest) =>
          if is_alnum c then None else Some (Lit c, rest)
      | String "." rest => Some (AnyChar, rest)
      | String "$" rest => Some (EndAnchor, rest)
      | String "(" (String "?" (String ":" rest)) =>
          match parse_alt n' rest with
          | Some (r, String ")" rest') => Some (r, rest')
          | _ => None
          end
      | String c rest => if is_meta c then None else Some (Lit c, rest)
      | EmptyString => None
      end
  end.

(** [re.compile(pattern)]; [None] stands for a pattern outside the
    fragment. *)
Definition compile (pattern : string) : option regex :=
  match parse_alt (3 * String.length pattern + 3) pattern with
  | Some (r, EmptyString) => Some r
  | _ => None
  end.

(** [matches r s k]: some way of matching [r] at the front of [s] leaves a
    rest that [k] accepts.  [$] holds at the end of the text and just before
    a newline that ends it; [.] takes any character but a newline. *)
Fixpoint matches (r : regex) (s : string) (k : string -> bool) : bool :=
  match r with
  | Empty => k s
  | Lit c =>
      match s with
      | String a s' => Ascii.eqb a c && k s'
      | EmptyString => false
      end
  | AnyChar =>
      match s with
      | String a s' => negb (Ascii.eqb a Py.newline) && k s'
      | EmptyString => false
      end
  | EndAnchor =>
      match s with
      | EmptyString => k s
      | String a EmptyString => Ascii.eqb a Py.newline && k s
      | _ => false
      end
  | Cat r1 r2 => matches r1 s (fun s' => matches r2 s' k)
  | Alt r1 r2 => matches r1 s k || matches r2 s k
  | Opt r1 => matches r1 s k || k s
  end.

(** A match of [r] starting at some position of [s]. *)
Fixpoint search_regex (r : regex) (s : string) : bool :=
  matches r s (fun _ => true) ||
  match s with
  | EmptyString => false
  | String _ s' => search_regex r s'
  end.

(** [bool(re.search(pattern, text))] *)
Definition search (pattern text : string) : bool :=
  match compile pattern with
  | Some r => search_regex r text
  | None => false
  end.

(** Every match of [r] takes the character [c] from the text. *)
Fixpoint needs (c : ascii) (r : regex) : bool :=
  match r with
  | Lit a => Ascii.eqb a c
  | Cat r1 r2 => needs c r1 || needs c r2
  | Alt r1 r2 => needs c r1 && needs c r2
  | _ => false
  end.

(** A pattern that can only match a text with a backslash in it (or that
    is no pattern of the fragment). *)
Definition wants_backslash (pattern : string) : bool :=
  match compile pattern with
  | Some r => needs "\" r
  | None => true
  end.

End Re.

(** ** [hashlib.sha256]: SHA-256 as FIPS 180-4 defines it, on 32-bit words
    held in [N] with the wrap-around written out. *)

Module Sha256.

Definition mask32 : N := 0xffffffff.
Definition w32 (x : N) : N := N.land x mask32.
Definition add32 (x y : N) : N := w32 (x + y).
Definition rotr (n x : N) : N := N.lor (N.shiftr x n) (w32 (N.shiftl x (32 - n))).
Definition not32 (x : N) : N := N.lxor x mask32.

Definition Ch (x y z : N) : N := N.lxor (N.land x y) (N.land (not32 x) z).
Definition Maj (x y z : N) : N :=
  N.lxor (N.lxor (N.land x y) (N.land x z)) (N.land y z).
Definition Sigma0 (x : N) : N := N.lxor (N.lxor (rotr 2 x) (rotr 13 x)) (rotr 22 x).
Definition Sigma1 (x : N) : N := N.lxor (N.lxor (rotr 6 x) (rotr 11 x)) (rotr 25 x).
Definition sigma0 (x : N) : N := N.lxor (N.lxor (rotr 7 x) (rotr 18 x)) (N.shiftr x 3).
Definition sigma1 (x : N) : N := N.lxor (N.lxor (rotr 17 x) (rotr 19 x)) (N.shiftr x 10).

Definition is_prime (n : nat) : bool :=
  (1 <? n)%nat && forallb (fun d => negb (n mod d =? 0)%nat) (seq 2 (n - 2)).

(** The first 64 primes: 2 to 311. *)
Definition primes : list N := List.map N.of_nat (List.filter is_prime (seq 2 310)).

(** The integer cube root of [x], found bit by bit from bit [n - 1] down. *)
Fixpoint cube_root_from (n : nat) (x r : N) : N :=
  match n with
  | O => r
  | S n' =>
      let r' := (r + 2 ^ N.of_nat n')%N in
      if (r' * r' * r' <=? x)%N then cube_root_from n' x r' else cube_root_from n' x r
  end.

(** The round constants: the first 32 bits of the fractional part of the
    cube root of each of the first 64 primes. *)
Definition K : list N :=
  Eval vm_compute in
    List.map (fun p => w32 (cube_root_from 40 (p * 2 ^ 96) 0)) primes.

(** The initial hash value: the first 32 bits of the fractional part of the
    square root of each of the first 8 primes. *)
Definition H0 : list N :=
  Eval vm_compute in
    List.map (fun p => w32 (N.sqrt (p * 2 ^ 64))) (firstn 8 primes).

(** Big-endian bytes of [x], [n] of them. *)
Fixpoint be_bytes (n : nat) (x : N) : list N :=
  match n with
  | O => []
  | S n' => N.land (N.shiftr x (8 * N.of_nat n')) 255 :: be_bytes n' x
  end.

Definition be_word (bs : list N) : N :=
  fold_left (fun acc b => N.lor (N.shiftl acc 8) b) bs 0%N.

(** The message followed by the bit 1, zeros, and its length in bits on 64
    bits: a whole number of 64-byte blocks. *)
Definition pad (msg : list N) : list N :=
  let l := List.length msg in
  let k := ((64 - (l + 9) mod 64) mod 64)%nat in
  (msg ++ 128%N :: List.repeat 0%N k) ++ be_bytes 8 (8 * N.of_nat l).

Fixpoint words (n : nat) (bs : list N) : list N :=
  match n with
  | O => []
  | S n' => be_word (firstn 4 bs) :: words n' (skipn 4 bs)
  end.

(** The message schedule, newest word first: [n] more words after [w]. *)
Fixpoint schedule (n : nat) (w : list N) : list N :=
  match n with
  | O => w
  | S n' =>
      let x := add32 (add32 (sigma1 (nth 1 w 0%N)) (nth 6 w 0%N))
                     (add32 (sigma0 (nth 14 w 0%N)) (nth 15 w 0%N)) in
      schedule n' (x :: w)
  end.

Record regs : Type := Regs { ra : N; rb : N; rc : N; rd : N; re : N; rf : N; rg : N; rh : N }.

Definition round (s : regs) (kw : N * N) : regs :=
  let t1 := add32 (add32 (add32 (rh s) (Sigma1 (re s))) (Ch (re s) (rf s) (rg s)))
                  (add32 (fst kw) (snd kw)) in
  let t2 := add32 (Sigma0 (ra s)) (Maj (ra s) (rb s) (rc s)) in
  Regs (add32 t1 t2) (ra s) (rb s) (rc s) (add32 (rd s) t1) (re s) (rf s) (rg s).

Definition regs_of (h : list N) : regs :=
  Regs (nth 0 h 0%N) (nth 1 h 0%N) (nth 2 h 0%N) (nth 3 h 0%N)
       (nth 4 h 0%N) (nth 5 h 0%N) (nth 6 h 0%N) (nth 7 h 0%N).

Definition list_of (s : regs) : list N :=
  [ra s; rb s; rc s; rd s; re s; rf s; rg s; rh s].

Definition compress (h : list N) (block : list N) : list N :=
  let w := List.rev (schedule 48 (List.rev (words 16 block))) in
  let s := fold_left round (combine K w) (regs_of h) in
  List.map (fun p => add32 (fst p) (snd p)) (combine h (list_of s)).

Fixpoint blocks (n : nat) (h : list N) (bs : list N) : list N :=
  match n with
  | O => h
  | S n' => blocks n' (compress h (firstn 64 bs)) (skipn 64 bs)
  end.

Definition digest_words (msg : list byte) : list N :=
  let p := pad (List.map Byte.to_N msg) in
  blocks (List.length p / 64)%nat H0 p.

Definition hex_digit (n : N) : ascii :=
  match String.get (N.to_nat n) "0123456789abcdef" with
  | Some c => c
  | None => "0"%char
  end.

Fixpoint hex (n : nat) (x : N) : string :=
  match n with
  | O => EmptyString
  | S n' => String (hex_digit (N.land (N.shiftr x (4 * N.of_nat n')) 15)) (hex n' x)
  end.

(** [hashlib.sha256(content).hexdigest()] *)
Definition hexdigest (content : list byte) : string :=
  fold_right (fun w s => hex 8 w ++ s) EmptyString (digest_words content).

End Sha256.

(** ** [urllib.parse] (CPython 3.11): [urlparse] and [urlunparse]

    The model is [urlsplit] where it returns.  [urlsplit] raises
    [ValueError] when the netloc it has split off has one square bracket
    without the other and, from 3.11.4 on, when a bracketed host is no IP
    address; the model has no such exit, so it stands for the code on the
    URLs whose netloc has no square bracket.  Where [urlsplit] raises, the
    program raises at its first parse of the URL, before it has touched any
    of the shared objects.  The theorems on the shape of what a function
    gives for a URL, and on which exceptions leave the response handler, take
    the absence of brackets as a hypothesis.  Below code point 256 the NFKC
    check of [urlsplit] never fires. *)

Module UrlParse.

Record ParseResult : Type := mkParseResult {
  scheme : string;
  netloc : string;
  path : string;
  params : string;
  query : string;
  fragment : string
}.

Definition uses_netloc : list string :=
  [ ""; "ftp"; "http"; "gopher"; "nntp"; "telnet";
    "imap"; "wais"; "file"; "mms"; "https"; "shttp";
    "snews"; "prospero"; "rtsp"; "rtspu"; "rsync";
    "svn"; "svn+ssh"; "sftp"; "nfs"; "git"; "git+ssh";
    "ws"; "wss" ].

Definition uses_params : list string :=
  [ ""; "ftp"; "hdl"; "prospero"; "http"; "imap";
    "https"; "shttp"; "rtsp"; "rtspu"; "sip"; "sips";
    "mms"; "sftp"; "tel" ].

Definition scheme_chars : string :=
  "abcdefghijklmnopqrstuvwxyzABCDEFGHIJKLMNOPQRSTUVWXYZ0123456789+-.".

Definition in_list (s : string) (l : list string) : bool :=
  existsb (String.eqb s) l.

(** [_WHATWG_C0_CONTROL_OR_SPACE]: the code points 0 to 32. *)
Definition is_c0_or_space (c : ascii) : bool := (Py.code c <=? 32)%N.

(** [c.isascii() and c.isalpha()] *)
Definition is_ascii_alpha (c : ascii) : bool :=
  let n := Py.code c in
  (((65 <=? n) && (n <=? 90)) || ((97 <=? n) && (n <=? 122)))%N.

Fixpoint lstrip_c0 (s : string) : string :=
  match s with
  | EmptyString => EmptyString
  | String c s' => if is_c0_or_space c then lstrip_c0 s' else s
  end.

(** [_UNSAFE_URL_BYTES_TO_REMOVE]: tab, carriage return, newline. *)
Definition remove_unsafe (s : string) : string :=
  Py.remove (ascii_of_nat 10) (Py.remove (ascii_of_nat 13) (Py.remove (ascii_of_nat 9) s)).

(** The scheme and what follows its colon; no scheme when the text before
    the first colon is empty, does not start with an ASCII letter, or has a
    character outside [scheme_chars]. *)
Definition split_scheme (url : string) : string * string :=
  match Py.cut ":" url with
  | Some (String c0 pre, rest) =>
      if is_ascii_alpha c0 && Py.all (fun c => Py.mem c scheme_chars) (String c0 pre)
      then (Py.lower (String c0 pre), rest)
      else (EmptyString, url)
  | _ => (EmptyString, url)
  end.

Definition is_netloc_delim (c : ascii) : bool := Py.mem c "/?#".

(** [_splitnetloc(url, 2)] *)
Definition splitnetloc (url : string) : string * string :=
  Py.break is_netloc_delim (Py.drop 2 url).

(** [url.split(c, 1)] when [c in url], as used for [#] and [?]. *)
Definition split_once (c : ascii) (url : string) : string * string :=
  match Py.cut c url with
  | Some (l, r) => (l, r)
  | None => (url, EmptyString)
  end.

(** The five components of [urlsplit(url)]:
    scheme, netloc, path, query, fragment. *)
Definition urlsplit (url : string) : string * string * string * string * string :=
  let url := remove_unsafe (lstrip_c0 url) in
  let '(scheme, url) := split_scheme url in
  let '(netloc, url) :=
    if Py.startswith "//" url then splitnetloc url else (EmptyString, url) in
  let '(url, fragment) := split_once "#" url in
  let '(url, query) := split_once "?" url in
  (scheme, netloc, url, query, fragment).

(** [s[:i]] and [s[i:]] for [i = s.rfind(c)], [c] occurring in [s]. *)
Definition rsplit_at (c : ascii) (s : string) : string * string :=
  let '(tail_rev, head_rev) := Py.break (Ascii.eqb c) (Py.rev s) in
  (Py.rev (Py.drop 1 head_rev), String c (Py.rev tail_rev)).

(** [_splitparams(url)], called when [';' in url]. *)
Definition splitparams (url : string) : string * string :=
  if Py.mem "/" url then
    let '(before, last) := rsplit_at "/" url in
    match Py.cut ";" last with
    | Some (l, r) => (before ++ l, r)
    | None => (url, EmptyString)
    end
  else split_once ";" url.

Definition urlparse (url : string) : ParseResult :=
  let '(scheme, netloc, url, query, fragment) := urlsplit url in
  let '(url, params) :=
    if in_list scheme uses_params && Py.mem ";" url then splitparams url
    else (url, EmptyString) in
  mkParseResult scheme netloc url params query fragment.

Definition nonempty (s : string) : bool :=
  match s with EmptyString => false | _ => true end.

Definition urlunsplit (scheme netloc url query fragment : string) : string :=
  let url :=
    if nonempty netloc ||
       (nonempty scheme && in_list scheme uses_netloc && negb (Py.startswith "//" url))
    then
      let url := if nonempty url && negb (Py.startswith "/" url) then "/" ++ url else url in
      "//" ++ netloc ++ url
    else url in
  let url := if nonempty scheme then scheme ++ ":" ++ url else url in
  let url := if nonempty query then url ++ "?" ++ query else url in
  let url := if nonempty fragment then url ++ "#" ++ fragment else url in
  url.

Definition urlunparse (scheme netloc url params query fragment : string) : string :=
  let url := if nonempty params then url ++ ";" ++ params else url in
  urlunsplit scheme netloc url query fragment.

End UrlParse.

(** ** The filtering lists *)

Definition UNINTERESTING_JS_STRICT : list string :=
  [ "segment\\.com"; "google-analytics\\.com"; "googletagmanager\\.com";
    "facebook\\.net"; "twitter\\.com"; "linkedin\\.com"; "hotjar\\.com";
    "jquery(?:\\.min)?\\.js"; "bootstrap(?:\\.min)?\\.js"; "cdn\\.jsdelivr\\.net";
    "cdn\\.cloudflare\\.com"; "polyfill\\.io"; "ads?\\."; "track(?:ing)?\\.js";
    "analytics\\.js"; "gtm\\.js"; "optimizely\\.com"; "\\.min\\.js$";
    "webpack"; "react"; "vue"; "angular"; "\/vendor\/"; "\/plugins\/";
    "\/docs\/"; "\/themes\/"; "\/dist\/";
    "\\.(?:woff|woff2|ttf|ttc|otf|eot|svg|png|jpg|js)$" ].

Definition UNINTERESTING_JS_RELAXED : list string :=
  [ "segment\\.com"; "google-analytics\\.com"; "googletagmanager";
    "facebook\\.com"; "twitter\\.com"; "linkedin\\.com";
    "hotspot|hotjar";
    "jquery(?:\\.com$|\\.js)"; "bootstrap(?:\\.js)"; "cdn\\.js\\.";
    "cloudflare\\.com"; "polyfill\\.io"; "ads?\\."; "track(?:ing)?\\.js";
    "analytics\\.js"; "gtm\\.js"; "optimizely\\.com";
    "webpack"; "react"; "vue"; "angular";
    "\\.(?:woff|woff2|ttf|eot|svg|png|jpg)\\.js$" ].

(** ** Helper functions *)

Definition is_interesting_js (url : string) (uninteresting_patterns : list string) : bool :=
  let lower_url := Py.lower url in
  negb (existsb (fun pattern => Re.search pattern lower_url) uninteresting_patterns).

Definition is_interesting_inline_script (content : string)
    (uninteresting_patterns : list string) : bool :=
  let lower_content := Py.lower content in
  negb (existsb (fun pattern => Re.search pattern lower_content) uninteresting_patterns).

(** First [re.sub] of [sanitize_filename_part]: each character of the class
    (less-than, greater-than, colon, double quote, slash, backslash, bar,
    question mark, star, single quote) becomes an underscore. *)
Definition forbidden_filename_chars : string := String Py.dquote "<>:/\|?*'".

Fixpoint replace_forbidden (text : string) : string :=
  match text with
  | EmptyString => EmptyString
  | String c s =>
      String (if Py.mem c forbidden_filename_chars then "_"%char else c)
             (replace_forbidden s)
  end.

(** [re.sub(r'_+', '_', text)]: each run of underscores becomes one. *)
Fixpoint collapse_underscores (text : string) : string :=
  match text with
  | EmptyString => EmptyString
  | String c s =>
      match c, s with
      | "_"%char, String "_" _ => collapse_underscores s
      | _, _ => String c (collapse_underscores s)
      end
  end.

Definition sanitize_filename_part (text : string) : string :=
  let text := replace_forbidden text in
  let text := collapse_underscores text in
  Py.strip "_" text.

Definition build_filename (url : string) (content : list byte) : string :=
  let parsed := UrlParse.urlparse url in
  let host := sanitize_filename_part (UrlParse.netloc parsed) in
  let path := Py.lstrip "/" (UrlParse.path parsed) in
  let path := if Py.endswith ".js" path
              then Py.take (String.length path - 3) path else path in
  let path := sanitize_filename_part path in
  let hash_prefix := Py.take 8 (Sha256.hexdigest content) in
  let filename := host ++ "_" ++ path ++ "_" ++ hash_prefix ++ ".js" in
  filename.

Definition get_domain_from_url (url : string) : string :=
  let parsed := UrlParse.urlparse url in
  let domain := if UrlParse.nonempty (UrlParse.netloc parsed)
                then UrlParse.netloc parsed else UrlParse.path parsed in
  Py.lower domain.

Definition normalize_url (url : string) : string :=
  let parsed := UrlParse.urlparse url in
  let netloc := Py.lower (UrlParse.netloc parsed) in
  let netloc := if Py.startswith "www." netloc then Py.drop 4 netloc else netloc in
  let path := Py.rstrip "/" (UrlParse.path parsed) in
  let normalized :=
    UrlParse.urlunparse (Py.lower (UrlParse.scheme parsed)) netloc path "" "" "" in
  normalized.

(** ** The mutable objects of a session and what the program does to the
    outside world *)

Inductive outcome (A : Type) : Type :=
| Returns (a : A)
| Raises (e : string).
Arguments Returns {A} a.
Arguments Raises {A} e.

(** What the program does to the browser, the file system and the log. *)
Inductive effect : Type :=
| BodyRead (url : string)
| FileWritten (filename : string) (content : list byte)
| LogError (url : string) (e : string)
| PageOpened (url : string)
| CollectorRegistered (url : string)
| Navigated (url : string)
| PageClosed (url : string).

(** The dictionary [skipped_counters]: its three keys are fixed. *)
Record counters : Type := mkCounters {
  small : nat;
  duplicate : nat;
  uninteresting : nat
}.

(** The objects shared by every handler of a session: [hash_set],
    [skipped_counters] and [errors] of [download_js_files], the set
    [visited] that [crawl_links] creates at its outermost call and hands
    down, and the effects so far, oldest first. *)
Record state : Type := mkState {
  hash_set : gset string;
  skipped_counters : counters;
  errors : list string;
  visited : gset string;
  effects : list effect
}.

(** The parameters of a session, and the two collaborators the program
    cannot see into: the file system ([write_error name] is the exception
    that opening or writing [name] in the output directory raises, if any)
    and the site ([site url] is what navigating a fresh page to [url] and
    reading its links gives: an exception, or the [href] values, each already
    joined with [url] by [urljoin]). *)
Record environment : Type := mkEnvironment {
  uninteresting_patterns : list string;
  include_cross_origin : bool;
  min_size : Z;
  domain : string;
  crawl : bool;
  write_error : string -> option string;
  site : string -> outcome (list string)
}.

(** A computation that reads and updates the shared objects and either
    returns or raises. *)
Definition M (A : Type) : Type := state -> state * outcome A.

Definition ret {A} (a : A) : M A := fun st => (st, Returns a).

Definition raise {A} (e : string) : M A := fun st => (st, Raises e).

Definition bind {A B} (m : M A) (k : A -> M B) : M B :=
  fun st =>
    match m st with
    | (st', Returns a) => k a st'
    | (st', Raises e) => (st', Raises e)
    end.

Declare Scope M_scope.
Delimit Scope M_scope with M.
Notation "x <- m ;; k" := (bind m (fun x => k))
  (at level 100, m at next level, k at level 200, right associativity) : M_scope.
Notation "m ;; k" := (bind m (fun _ => k))
  (at level 100, k at level 200, right associativity) : M_scope.
Local Open Scope M_scope.

(** [try: m  except Exception as e: handler e]; the exceptions of the model
    are those of class [Exception], each known by its message. *)
Definition try_except {A} (m : M A) (handler : string -> M A) : M A :=
  fun st =>
    match m st with
    | (st', Returns a) => (st', Returns a)
    | (st', Raises e) => handler e st'
    end.

(** [try: m  finally: cleanup] *)
Definition try_finally {A} (m : M A) (cleanup : M unit) : M A :=
  fun st =>
    match m st with
    | (st', r) =>
        match cleanup st' with
        | (st'', Returns _) => (st'', r)
        | (st'', Raises e) => (st'', Raises e)
        end
    end.

Definition get : M state := fun st => (st, Returns st).

(** The updates of the shared objects. *)
Definition add_effect (e : effect) (st : state) : state :=
  mkState (hash_set st) (skipped_counters st) (errors st) (visited st)
          (effects st ++ [e]).

Inductive skip_reason : Type := Small | Duplicate | Uninteresting.

(** [skipped_counters[reason] += 1] *)
Definition bump (reason : skip_reason) (c : counters) : counters :=
  match reason with
  | Small => mkCounters (S (small c)) (duplicate c) (uninteresting c)
  | Duplicate => mkCounters (small c) (S (duplicate c)) (uninteresting c)
  | Uninteresting => mkCounters (small c) (duplicate c) (S (uninteresting c))
  end.

Definition add_skip (reason : skip_reason) (st : state) : state :=
  mkState (hash_set st) (bump reason (skipped_counters st)) (errors st)
          (visited st) (effects st).

Definition add_hash (h : string) (st : state) : state :=
  mkState ({[h]} ∪ hash_set st) (skipped_counters st) (errors st)
          (visited st) (effects st).

Definition add_visited (u : string) (st : state) : state :=
  mkState (hash_set st) (skipped_counters st) (errors st)
          ({[u]} ∪ visited st) (effects st).

Definition add_error (msg : string) (st : state) : state :=
  mkState (hash_set st) (skipped_counters st) (errors st ++ [msg])
          (visited st) (effects st).

Definition emit (e : effect) : M unit := fun st => (add_effect e st, Returns tt).

Definition skip (reason : skip_reason) : M unit :=
  fun st => (add_skip reason st, Returns tt).

(** [hash_set.add(h)] *)
Definition hash_set_add (h : string) : M unit := fun st => (add_hash h st, Returns tt).

(** [visited.add(u)] *)
Definition visited_add (u : string) : M unit := fun st => (add_visited u st, Returns tt).

(** [errors.append(msg)] *)
Definition errors_append (msg : string) : M unit :=
  fun st => (add_error msg st, Returns tt).

(** [with open(filepath, 'wb') as f: f.write(content)] *)
Definition write_file (env : environment) (filename : string) (content : list byte) : M unit :=
  match write_error env filename with
  | Some e => raise e
  | None => emit (FileWritten filename content)
  end.

(** ** The asset collector *)

(** A response event: its request's resource type, its URL, and what
    [await response.body()] gives. *)
Record response : Type := mkResponse {
  resource_type : string;
  url : string;
  body : outcome (list byte)
}.

(** [content = await response.body()] *)
Definition response_body (r : response) : M (list byte) :=
  emit (BodyRead (url r)) ;; fun st => (st, body r).

(** The two tests that guard the [try] block of [on_response]. *)
Definition passes_gates (env : environment) (r : response) : bool :=
  UrlParse.in_list (resource_type r) ["script"; "fetch"; "xhr"] &&
  ((include_cross_origin env || String.eqb (get_domain_from_url (url r)) (domain env)) &&
   is_interesting_js (url r) (uninteresting_patterns env)).

Definition on_response (env : environment) (r : response) : M unit :=
  if UrlParse.in_list (resource_type r) ["script"; "fetch"; "xhr"] then
    let url := url r in
    let url_domain := get_domain_from_url url in
    if (include_cross_origin env || String.eqb url_domain (domain env)) &&
       is_interesting_js url (uninteresting_patterns env)
    then
      try_except
        (content <- response_body r ;;
         if Py.len content <? min_size env then
           skip Small
         else
           let content_hash := Sha256.hexdigest content in
           st <- get ;;
           if bool_decide (content_hash ∈ hash_set st) then
             skip Duplicate
           else
             hash_set_add content_hash ;;
             let filename := build_filename url content in
             write_file env filename content)
        (fun e => emit (LogError url e))
    else ret tt
  else ret tt.

(** The body of the loop of [process_inline_scripts] for one script: [true]
    when it reaches [inline_count += 1], [false] when it leaves by
    [continue]. *)
Definition process_inline_script (env : environment) (script : string) : M bool :=
  if negb (is_interesting_inline_script script (uninteresting_patterns env)) then
    skip Uninteresting ;; ret false
  else
    let content := Py.encode_utf8 script in
    if Py.len content <? min_size env then
      skip Small ;; ret false
    else
      let content_hash := Sha256.hexdigest content in
      st <- get ;;
      if bool_decide (content_hash ∈ hash_set st) then
        skip Duplicate ;; ret false
      else
        hash_set_add content_hash ;;
        let filename := domain env ++ "_inline_" ++ Py.take 8 content_hash ++ ".js" in
        write_file env filename content ;;
        ret true.

Fixpoint process_inline_scripts_from (env : environment) (inline_scripts : list string)
    (inline_count : nat) : M nat :=
  match inline_scripts with
  | [] => ret inline_count
  | script :: rest =>
      saved <- process_inline_script env script ;;
      process_inline_scripts_from env rest
        (if saved : bool then S inline_count else inline_count)
  end.

Definition process_inline_scripts (env : environment) (inline_scripts : list string) : M nat :=
  process_inline_scripts_from env inline_scripts 0.

(** ** The crawl controller *)

(** [await page.goto(current_url, ...)] and the reading of the links of the
    page, up to the list [hrefs] before it is filtered. *)
Definition goto_and_links (env : environment) (current_url : string) : M (list string) :=
  emit (Navigated current_url) ;; fun st => (st, site env current_url).

(** [for x in l: await f x] *)
Fixpoint for_each {A} (l : list A) (f : A -> M unit) : M unit :=
  match l with
  | [] => ret tt
  | x :: l' => f x ;; for_each l' f
  end.

(** [crawl_links(context, current_url, max_depth, visited)] for a
    [max_depth] given as a natural number: 0 stands for every
    [max_depth <= 0], and [S d] has [max_depth - 1 = d]. *)
Fixpoint crawl_links_at (env : environment) (max_depth : nat) (current_url : string) : M unit :=
  if negb (crawl env) then ret tt
  else
    let normalized_url := normalize_url current_url in
    st <- get ;;
    if bool_decide (normalized_url ∈ visited st) then ret tt
    else
      visited_add normalized_url ;;
      match max_depth with
      | O => ret tt
      | S depth' =>
          emit (PageOpened current_url) ;;
          emit (CollectorRegistered current_url) ;;
          try_finally
            (try_except
               (links <- goto_and_links env current_url ;;
                st <- get ;;
                let hrefs :=
                  List.filter
                    (fun href =>
                       String.eqb (get_domain_from_url href) (domain env) &&
                       negb (bool_decide (normalize_url href ∈ visited st)))
                    links in
                for_each hrefs (fun href => crawl_links_at env depth' href))
               (fun e => errors_append ("Crawl error: " ++ current_url ++ " - " ++ e)))
            (emit (PageClosed current_url))
      end.

(** The outermost call, [crawl_links(context, target_url, max_depth=max_depth)]:
    [visited] is [None] and becomes a fresh set. *)
Definition crawl_links (env : environment) (target_url : string) (max_depth : Z) : M unit :=
  fun st =>
    crawl_links_at env (Z.to_nat max_depth) target_url
      (mkState (hash_set st) (skipped_counters st) (errors st) ∅ (effects st)).

(** ** The session *)

(** [hash_set = set()], [errors = []], the three counters at 0. *)
Definition initial_state : state :=
  mkState ∅ (mkCounters 0 0 0) [] ∅ [].

(** The environment [download_js_files] builds from its arguments. *)
Definition session (target_url filter_mode : string) (min_size : Z)
    (crawl include_cross_origin : bool)
    (write_error : string -> option string)
    (site : string -> outcome (list string)) : environment :=
  mkEnvironment
    (if String.eqb filter_mode "strict" then UNINTERESTING_JS_STRICT
     else UNINTERESTING_JS_RELAXED)
    include_cross_origin min_size (get_domain_from_url target_url)
    crawl write_error site.

(** What the event loop runs, one handler after the other: the part of
    [on_response] after its only suspension point, which has touched nothing
    before it, and [process_inline_scripts], which never suspends. *)
Inductive event : Type :=
| Response (r : response)
| InlineScripts (inline_scripts : list string).

(** [asyncio.create_task(m)]: an exception that leaves [m] ends the task,
    not the session. *)
Definition task (m : M unit) : M unit := try_except m (fun _ => ret tt).

Definition handle (env : environment) (ev : event) : M unit :=
  match ev with
  | Response r => task (on_response env r)
  | InlineScripts inline_scripts => process_inline_scripts env inline_scripts ;; ret tt
  end.

(** The events of a session in the order the loop runs them; an exception
    that leaves [process_inline_scripts] ends the session. *)
Definition run (env : environment) (events : list event) : M unit :=
  for_each events (handle env).

(** ** What a run leaves behind *)

(** The files written, oldest first. *)
Definition written (effs : list effect) : list (string * list byte) :=
  omap (fun e => match e with FileWritten name content => Some (name, content) | _ => None end) effs.


(** The URLs pages were navigated to, and the URLs of the pages a collector
    was registered on. *)
Definition navigations (effs : list effect) : list string :=
  omap (fun e => match e with Navigated u => Some u | _ => None end) effs.

Definition collectors (effs : list effect) : list string :=
  omap (fun e => match e with CollectorRegistered u => Some u | _ => None end) effs.

(** The content a response or an inline script brings to the look-up in
    [hash_set]: it has passed every test before it. *)
Definition response_candidate (env : environment) (r : response) : option (list byte) :=
  if passes_gates env r then
    match body r with
    | Returns content => if Py.len content <? min_size env then None else Some content
    | Raises _ => None
    end
  else None.

Definition inline_candidate (env : environment) (script : string) : option (list byte) :=
  if is_interesting_inline_script script (uninteresting_patterns env) then
    let content := Py.encode_utf8 script in
    if Py.len content <? min_size env then None else Some content
  else None.





(** The cases of [on_response], each with the state it ends in. *)
Inductive on_response_case (env : environment) (r : response) (st : state) : state -> Prop :=
| case_rejected :
    passes_gates env r = false ->
    on_response_case env r st st
| case_body_error e :
    passes_gates env r = true -> body r = Raises e ->
    on_response_case env r st
      (add_effect (LogError (url r) e) (add_effect (BodyRead (url r)) st))
| case_small content :
    passes_gates env r = true -> body r = Returns content ->
    Py.len content < min_size env ->
    on_response_case env r st
      (add_skip Small (add_effect (BodyRead (url r)) st))
| case_duplicate content :
    passes_gates env r = true -> body r = Returns content ->
    min_size env <= Py.len content ->
    Sha256.hexdigest content ∈ hash_set st ->
    on_response_case env r st
      (add_skip Duplicate (add_effect (BodyRead (url r)) st))
| case_saved content :
    passes_gates env r = true -> body r = Returns content ->
    min_size env <= Py.len content ->
    Sha256.hexdigest content ∉ hash_set st ->
    write_error env (build_filename (url r) content) = None ->
    on_response_case env r st
      (add_effect (FileWritten (build_filename (url r) content) content)
         (add_hash (Sha256.hexdigest content) (add_effect (BodyRead (url r)) st)))
| case_write_error content e :
    passes_gates env r = true -> body r = Returns content ->
    min_size env <= Py.len content ->
    Sha256.hexdigest content ∉ hash_set st ->
    write_error env (build_filename (url r) content) = Some e ->
    on_response_case env r st
      (add_effect (LogError (url r) e)
         (add_hash (Sha256.hexdigest content) (add_effect (BodyRead (url r)) st))).

(** The name [process_inline_scripts] gives the file of an inline script. *)
Definition inline_filename (env : environment) (content : list byte) : string :=
  domain env ++ "_inline_" ++ Py.take 8 (Sha256.hexdigest content) ++ ".js".

(** The cases of one turn of the loop of [process_inline_scripts]. *)
Inductive inline_case (env : environment) (script : string) (st : state) :
    state * outcome bool -> Prop :=
| inline_uninteresting :
    is_interesting_inline_script script (uninteresting_patterns env) = false ->
    inline_case env script st (add_skip Uninteresting st, Returns false)
| inline_small :
    is_interesting_inline_script script (uninteresting_patterns env) = true ->
    Py.len (Py.encode_utf8 script) < min_size env ->
    inline_case env script st (add_skip Small st, Returns false)
| inline_duplicate :
    is_interesting_inline_script script (uninteresting_patterns env) = true ->
    min_size env <= Py.len (Py.encode_utf8 script) ->
    Sha256.hexdigest (Py.encode_utf8 script) ∈ hash_set st ->
    inline_case env script st (add_skip Duplicate st, Returns false)
| inline_saved :
    is_interesting_inline_script script (uninteresting_patterns env) = true ->
    min_size env <= Py.len (Py.encode_utf8 script) ->
    Sha256.hexdigest (Py.encode_utf8 script) ∉ hash_set st ->
    write_error env (inline_filename env (Py.encode_utf8 script)) = None ->
    inline_case env script st
      (add_effect (FileWritten (inline_filename env (Py.encode_utf8 script))
                     (Py.encode_utf8 script))
         (add_hash (Sha256.hexdigest (Py.encode_utf8 script)) st), Returns true)
| inline_write_error e :
    is_interesting_inline_script script (uninteresting_patterns env) = true ->
    min_size env <= Py.len (Py.encode_utf8 script) ->
    Sha256.hexdigest (Py.encode_utf8 script) ∉ hash_set st ->
    write_error env (inline_filename env (Py.encode_utf8 script)) = Some e ->
    inline_case env script st
      (add_hash (Sha256.hexdigest (Py.encode_utf8 script)) st, Raises e).



(** Nothing below the size floor is written or claimed. *)
Definition above_floor (env : environment) (st : state) : Prop :=
  (forall file, file ∈ written (effects st) -> min_size env <= Py.len (snd file)) /\
  (forall h, h ∈ hash_set st ->
     exists content, h = Sha256.hexdigest content /\ min_size env <= Py.len content).

(** ** The shape of a URL *)

(** Tab, carriage return and newline, which [urlsplit] removes. *)
Definition unsafe_chars : string :=
  String (ascii_of_nat 9) (String (ascii_of_nat 13) (String (ascii_of_nat 10) EmptyString)).

(** No character of [s] is one of [forbidden]. *)
Definition plain (forbidden s : string) : bool :=
  Py.all (fun c => negb (Py.mem c forbidden)) s.

(** A scheme: an ASCII letter, then letters, digits, plus, minus or dot. *)
Definition is_scheme (s : string) : bool :=
  match s with
  | String c0 _ =>
      UrlParse.is_ascii_alpha c0 && Py.all (fun c => Py.mem c UrlParse.scheme_chars) s
  | EmptyString => false
  end.

(** [s] is empty or begins with one of [delims]. *)
Definition opens_with (delims s : string) : bool :=
  match s with
  | EmptyString => true
  | String c _ => Py.mem c delims
  end.

(** The netloc without a leading www., as [normalize_url] strips it. *)
Definition strip_www (netloc : string) : string :=
  if Py.startswith "www." netloc then Py.drop 4 netloc else netloc.

(** What one branch of the crawl does between two states: it appends
    [new] to the effects, only adds to [visited], navigates to no URL twice,
    and navigates only to URLs whose normal form was not in [visited] before
    and is in it after. *)
Definition crawl_step (st st' : state) (new : list effect) : Prop :=
  effects st' = (effects st ++ new)%list /\
  visited st ⊆ visited st' /\
  NoDup (normalize_url <$> navigations new) /\
  forall u, u ∈ navigations new ->
    (normalize_url u ∉ visited st) /\ (normalize_url u ∈ visited st').

(** ** Further observations *)

(** [sub in s] *)
Fixpoint contains (sub s : string) : bool :=
  Py.startswith sub s ||
  match s with
  | EmptyString => false
  | String _ s' => contains sub s'
  end.

(** A digit of lower-case hexadecimal. *)
Definition is_hex (c : ascii) : bool := Py.mem c "0123456789abcdef".

(** The pattern that is a plain word: its characters one after the
    other. *)
Fixpoint literal (word : string) : Re.regex :=
  match word with
  | EmptyString => Re.Empty
  | String c w => Re.Cat (Re.Lit c) (literal w)
  end.

(** [any(word in text for word in words)] *)
Definition mentions (words : list string) (text : string) : bool :=
  existsb (fun word => contains word text) words.

(** The bodies read, the errors logged, the pages opened and closed,
    oldest first. *)
Definition bodies (effs : list effect) : list string :=
  omap (fun e => match e with BodyRead u => Some u | _ => None end) effs.

Definition logged (effs : list effect) : list (string * string) :=
  omap (fun e => match e with LogError u e => Some (u, e) | _ => None end) effs.

Definition opened (effs : list effect) : list string :=
  omap (fun e => match e with PageOpened u => Some u | _ => None end) effs.

Definition closed (effs : list effect) : list string :=
  omap (fun e => match e with PageClosed u => Some u | _ => None end) effs.

(** The responses of a list of events that pass the two gates of
    [on_response], and the inline scripts of the list. *)
Definition gated (env : environment) (events : list event) : list response :=
  events ≫= (fun ev =>
    match ev with
    | Response r => if passes_gates env r then [r] else []
    | InlineScripts _ => []
    end).

Definition inline_scripts_of (events : list event) : list string :=
  events ≫= (fun ev =>
    match ev with
    | Response _ => []
    | InlineScripts inline_scripts => inline_scripts
    end).

(** What has been settled so far: skipped under one of the three
    counters, written, or logged as an error. *)
Definition settled (st : state) : nat :=
  (small (skipped_counters st) + duplicate (skipped_counters st) +
   uninteresting (skipped_counters st) +
   length (written (effects st)) + length (logged (effects st)))%nat.

(** The effects of the collector: it reads bodies, writes files and logs
    errors. *)
Definition collector_effect (e : effect) : bool :=
  match e with
  | BodyRead _ | FileWritten _ _ | LogError _ _ => true
  | _ => false
  end.

(** Where a file comes from: a response that passes the gates, whose body
    it holds under the name [build_filename] gives; or an inline script that
    the filter accepts, whose UTF-8 bytes it holds under the inline name. *)
Definition from_event (env : environment) (events : list event)
    (file : string * list byte) : Prop :=
  (exists r,
     Response r ∈ events /\ passes_gates env r = true /\
     body r = Returns (snd file) /\
     fst file = build_filename (url r) (snd file)) \/
  (exists inline_scripts script,
     InlineScripts inline_scripts ∈ events /\ script ∈ inline_scripts /\
     is_interesting_inline_script script (uninteresting_patterns env) = true /\
     snd file = Py.encode_utf8 script /\
     fst file = inline_filename env (snd file)).

(** [eligible_inline] of [download_js_files], computed before
    [process_inline_scripts] runs. *)
Definition eligible_inline (env : environment) (st : state)
    (inline_scripts : list string) : list string :=
  List.filter
    (fun s =>
       (min_size env <=? Py.len (Py.encode_utf8 s)) &&
       negb (bool_decide (Sha256.hexdigest (Py.encode_utf8 s) ∈ hash_set st)) &&
       is_interesting_inline_script s (uninteresting_patterns env))
    inline_scripts.

(** The message [crawl_links] appends to [errors] when the page at [url]
    cannot be crawled. *)
Definition crawl_error (env : environment) (url : string) : option string :=
  match site env url with
  | Raises e => Some ("Crawl error: " ++ url ++ " - " ++ e)
  | Returns _ => None
  end.

(** The effects of the crawl controller: it opens pages, registers a
    collector on each, navigates and closes. *)
Definition page_effect (e : effect) : bool :=
  match e with
  | PageOpened _ | CollectorRegistered _ | Navigated _ | PageClosed _ => true
  | _ => false
  end.

(** What a branch of the crawl does to the session between two states,
    with [new] the effects it appends: [errors] gains the message of each
    navigation that failed, in the order of the navigations; each page opened
    gets a collector, is navigated to, and is closed. *)
Definition crawl_pages (env : environment) (st st' : state) (new : list effect) : Prop :=
  effects st' = (effects st ++ new)%list /\
  errors st' = (errors st ++ omap (crawl_error env) (navigations new))%list /\
  forallb page_effect new = true /\
  opened new = navigations new /\
  collectors new = navigations new /\
  closed new ≡ₚ navigations new.

(** [link_path env n a b]: [n] links lead from the page [a] to [b], each
    found on the page before it and on the domain of the session. *)
Inductive link_path (env : environment) : nat -> string -> string -> Prop :=
| link_path_here a : link_path env 0 a a
| link_path_step n a links b c :
    site env a = Returns links -> b ∈ links ->
    get_domain_from_url b = domain env ->
    link_path env n b c ->
    link_path env (S n) a c.

(** ** The list of URLs of the command line *)

(** The characters [str.strip()] removes, among the first 256: tab to
    carriage return, the four separators, space, next line and the
    no-break space. *)
Definition whitespace : string :=
  string_of_list_ascii
    (List.map ascii_of_nat [9; 10; 11; 12; 13; 28; 29; 30; 31; 32; 133; 160]%nat).

(** The loop over the lines of the URL file, with [urls] as it stands. *)
Fixpoint read_url_lines (lines : list string) (urls : list string) : list string :=
  match lines with
  | [] => urls
  | line :: rest =>
      let line := Py.strip whitespace line in
      if negb (UrlParse.nonempty line) || Py.startswith "#" line
      then read_url_lines rest urls
      else read_url_lines rest (urls ++ [line])
  end.

(** How the main block ends its choice of URLs: with the list to process,
    or with [exit(code)]. *)
Inductive selection : Type :=
| Process (urls : list string)
| Exit (code : Z).

(** An optional argument of the command line as a condition: given and not
    the empty string. *)
Definition given (arg : option string) : bool :=
  match arg with
  | Some s => UrlParse.nonempty s
  | None => false
  end.

(** The choice of URLs; [file_lines path] is [None] when no file is at
    [path], and else the lines of the file. *)
Definition select_urls (file_lines : string -> option (list string))
    (url_file url : option string) : selection :=
  if given url_file then
    match file_lines (default EmptyString url_file) with
    | None => Exit 1
    | Some lines =>
        let urls := read_url_lines lines [] in
        if bool_decide (urls = []) then Exit 1 else Process urls
    end
  else if given url then Process [default EmptyString url]
  else Exit 1.

(** ** Scenarios *)

Module Scenario.


(** A file system on which every write succeeds. *)
Definition no_write_error : string -> option string := fun _ => None.


(** A site whose pages have no links. *)
Definition no_links : string -> outcome (list string) := fun _ => Returns [].

Definition snippet : list byte := list_byte_of_string "console.log(1)".



Definition example_com (min_size : Z) (write_error : string -> option string) : environment :=
  session "https://example.com" "strict" min_size false false write_error no_links.

(** A session on a target with an explicit port. *)
Definition with_port : environment :=
  session "https://example.com:8080/" "strict" 1 false false no_write_error no_links.

(** A response whose body cannot be read. *)
Definition broken_response : response :=
  mkResponse "script" "https://example.com/app.js" (Raises "net::ERR_CONNECTION_RESET").

(** Three pages that link in a cycle: A to B, B to C, C to A. *)
Definition page_a : string := "https://example.com/a".
Definition page_b : string := "https://example.com/b".
Definition page_c : string := "https://example.com/c".

Definition cycle (u : string) : outcome (list string) :=
  if String.eqb u page_a then Returns [page_b]
  else if String.eqb u page_b then Returns [page_c]
  else if String.eqb u page_c then Returns [page_a]
  else Raises "net::ERR_NAME_NOT_RESOLVED".

Definition cycle_session : environment :=
  session page_a "strict" 150 true false no_write_error cycle.

(** A file system on which no write succeeds. *)
Definition read_only : string -> option string :=
  fun _ => Some "[Errno 30] Read-only file system".

End Scenario.

(** ** Tactics *)

(** Unfolds the plumbing of [M] in the goal. *)
Ltac step_m :=
  cbv beta iota delta
    [bind try_except try_finally ret raise get emit skip hash_set_add
     visited_add errors_append response_body task].

(** Computes the fields of an updated state. *)
Ltac simpl_state :=
  cbn [hash_set skipped_counters errors visited effects add_effect add_skip
       add_hash add_visited add_error bump small duplicate uninteresting] in *.

(** Proves a statement about every character by running through the 256
    of them. *)
Ltac by_chars :=
  let c := fresh "c" in
  intros c; destruct c as [[] [] [] [] [] [] [] []]; vm_compute; intuition congruence.

(** * Properties *)

(** ** The models of the libraries on known values *)

Lemma sha256_test_vectors :
  Sha256.hexdigest [] =
    "e3b0c44298fc1c149afbf4c8996fb92427ae41e4649b934ca495991b7852b855" /\
  Sha256.hexdigest (list_byte_of_string "abc") =
    "ba7816bf8f01cfea414140de5dae2223b00361a396177a9cb410ff61f20015ad" /\
  Sha256.hexdigest (List.repeat "x"%byte 600) =
    "5130b33e6b87fbf5316ed9049e98924eb110800bcbaaad8050f642fba6df37c9".
Proof. by vm_compute. Qed.

Lemma urlparse_examples :
  UrlParse.urlparse "HTTP://WWW.Example.com:80/a/" =
    UrlParse.mkParseResult "http" "WWW.Example.com:80" "/a/" "" "" "" /\
  UrlParse.urlparse "http://h/a;p/b;q?x#y" =
    UrlParse.mkParseResult "http" "h" "/a;p/b" "q" "x" "y" /\
  UrlParse.urlparse "example.com/path" =
    UrlParse.mkParseResult "" "" "example.com/path" "" "" "".
Proof. by vm_compute. Qed.

Lemma search_examples :
  Re.search "a.?b" "xxab" = true /\
  Re.search "a$" (String "a" (String Py.newline "")) = true /\
  Re.search "a$" (String "a" (String Py.newline "b")) = false /\
  Re.search "a.b" (String "a" (String Py.newline "b")) = false /\
  Re.search "hotspot|hotjar" "static.hotjar.com" = true.
Proof. by vm_compute. Qed.

(** ** The collector *)

Section Collector.

Context (env : environment).

Lemma on_response_cases r st :
  exists st', on_response env r st = (st', Returns tt) /\ on_response_case env r st st'.
Proof.
  unfold on_response.
  destruct (passes_gates env r) eqn:Hg; unfold passes_gates in Hg.
  2: { exists st. split; [|by apply case_rejected].
       destruct (UrlParse.in_list _ _); [|done]. simpl in Hg. by rewrite Hg. }
  apply andb_prop in Hg as [Hk Hg]. rewrite Hk, Hg.
  assert (Hp : passes_gates env r = true) by (unfold passes_gates; by rewrite Hk, Hg).
  step_m.
  destruct (body r) as [content|e] eqn:Hb; step_m.
  2: { eexists; split; [done|]. by apply case_body_error. }
  destruct (Py.len content <? min_size env) eqn:Hs; step_m.
  { eexists; split; [done|]. eapply case_small; [done..|lia]. }
  apply Z.ltb_ge in Hs.
  replace (hash_set (add_effect (BodyRead (url r)) st)) with (hash_set st) by done.
  case_bool_decide as Hm; step_m.
  { eexists; split; [done|]. by eapply case_duplicate. }
  unfold write_file.
  destruct (write_error env (build_filename (url r) content)) as [e|] eqn:Hw; step_m.
  - eexists; split; [done|]. by eapply case_write_error.
  - eexists; split; [done|]. by eapply case_saved.
Qed.

Lemma process_inline_script_cases script st :
  exists res, process_inline_script env script st = res /\ inline_case env script st res.
Proof.
  eexists; split; [reflexivity|].
  unfold process_inline_script.
  destruct (is_interesting_inline_script script _) eqn:Hi; cbn [negb]; step_m.
  2: { by apply inline_uninteresting. }
  destruct (Py.len (Py.encode_utf8 script) <? min_size env) eqn:Hs; step_m.
  { apply inline_small; [done|lia]. }
  apply Z.ltb_ge in Hs.
  case_bool_decide as Hm; step_m.
  { by apply inline_duplicate. }
  unfold write_file. fold (inline_filename env (Py.encode_utf8 script)).
  destruct (write_error env (inline_filename env (Py.encode_utf8 script))) as [e|] eqn:Hw;
    step_m.
  - by apply inline_write_error.
  - by apply inline_saved.
Qed.

Lemma process_inline_scripts_from_cons script rest n st :
  process_inline_scripts_from env (script :: rest) n st =
  match process_inline_script env script st with
  | (st', Returns saved) =>
      process_inline_scripts_from env rest (if saved : bool then S n else n) st'
  | (st', Raises e) => (st', Raises e)
  end.
Proof. reflexivity. Qed.

Lemma written_app l1 l2 : written (l1 ++ l2) = (written l1 ++ written l2)%list.
Proof. apply omap_app. Qed.



(** *** Invariants of a session *)

(** A property of the state that both handlers keep is kept by a run. *)
Lemma run_invariant (P : state -> Prop) :
  (forall r st, P st -> P (fst (on_response env r st))) ->
  (forall script st, P st -> P (fst (process_inline_script env script st))) ->
  forall events st, P st -> P (fst (run env events st)).
Proof.
  intros Hr Hi events. unfold run.
  assert (Hloop : forall scripts n st, P st ->
            P (fst (process_inline_scripts_from env scripts n st))).
  { induction scripts as [|script rest IH]; intros n st HP; [done|].
    rewrite process_inline_scripts_from_cons.
    specialize (Hi script st HP).
    destruct (process_inline_script env script st) as [st' [saved|e]]; [|done].
    by apply IH. }
  induction events as [|ev events IH]; intros st HP; [done|].
  cbn [for_each]. step_m.
  destruct ev as [r|scripts]; cbn [handle]; step_m.
  - destruct (on_response_cases r st) as (st' & Heq & _).
    specialize (Hr r st HP). rewrite Heq in Hr |- *. by apply IH.
  - unfold process_inline_scripts.
    specialize (Hloop scripts 0%nat st HP).
    destruct (process_inline_scripts_from env scripts 0 st) as [st' [n|e]]; [|done].
    by apply IH.
Qed.






Lemma response_candidate_some r content :
  passes_gates env r = true -> body r = Returns content ->
  min_size env <= Py.len content ->
  response_candidate env r = Some content.
Proof.
  intros Hp H Hs. unfold response_candidate. rewrite Hp, H.
  apply Z.ltb_ge in Hs. by rewrite Hs.
Qed.













Lemma response_candidate_inv r content :
  response_candidate env r = Some content ->
  passes_gates env r = true /\ body r = Returns content /\
  min_size env <= Py.len content.
Proof.
  unfold response_candidate. destruct (passes_gates env r); [|done].
  destruct (body r) as [c|e]; [|done].
  destruct (Py.len c <? min_size env) eqn:Hs; [done|].
  intros [= ->]. apply Z.ltb_ge in Hs. done.
Qed.

Lemma inline_candidate_inv script content :
  inline_candidate env script = Some content ->
  is_interesting_inline_script script (uninteresting_patterns env) = true /\
  content = Py.encode_utf8 script /\
  min_size env <= Py.len content.
Proof.
  unfold inline_candidate. destruct (is_interesting_inline_script _ _); [|done].
  destruct (Py.len _ <? min_size env) eqn:Hs; [done|].
  intros [= <-]. apply Z.ltb_ge in Hs. done.
Qed.



Lemma on_response_small r st content :
  body r = Returns content -> Py.len content < min_size env ->
  on_response env r st =
    (if passes_gates env r then add_skip Small (add_effect (BodyRead (url r)) st) else st,
     Returns tt).
Proof.
  intros Hb Hs. destruct (on_response_cases r st) as (st' & -> & Hc). f_equal.
  destruct Hc as [Hp|e Hp Hb'|c Hp Hb'|c Hp Hb' Hs'|c Hp Hb' Hs'|c e Hp Hb' Hs'];
    rewrite Hp; try done; rewrite Hb in Hb'; simplify_eq; lia.
Qed.

Lemma process_inline_script_small script st :
  Py.len (Py.encode_utf8 script) < min_size env ->
  process_inline_script env script st =
    (add_skip (if is_interesting_inline_script script (uninteresting_patterns env)
               then Small else Uninteresting) st, Returns false).
Proof.
  intros Hs. destruct (process_inline_script_cases script st) as (res & -> & Hc).
  destruct Hc as [Hi|Hi|Hi|Hi|e Hi]; rewrite Hi; try done; lia.
Qed.

Lemma on_response_above_floor r st :
  above_floor env st -> above_floor env (fst (on_response env r st)).
Proof.
  intros [Hf Hh]. destruct (on_response_cases r st) as (st' & -> & Hc).
  cbn [fst]. destruct Hc; unfold above_floor; simpl_state;
    rewrite ?written_app, ?app_nil_r; try done.
  - change (written [FileWritten ?n ?c]) with [(n, c)].
    split.
    + intros file Hin. apply elem_of_app in Hin as [Hin|Hin]; [by apply Hf|].
      apply list_elem_of_singleton in Hin. by subst.
    + intros h Hin. apply elem_of_union in Hin as [Hin|Hin]; [|by apply Hh].
      apply elem_of_singleton in Hin. subst. by exists content.
  - split; [done|].
    intros h Hin. apply elem_of_union in Hin as [Hin|Hin]; [|by apply Hh].
    apply elem_of_singleton in Hin. subst. by exists content.
Qed.

Lemma process_inline_script_above_floor script st :
  above_floor env st -> above_floor env (fst (process_inline_script env script st)).
Proof.
  intros [Hf Hh]. destruct (process_inline_script_cases script st) as (res & -> & Hc).
  destruct Hc; cbn [fst]; unfold above_floor; simpl_state;
    rewrite ?written_app; try done.
  - change (written [FileWritten ?n ?c]) with [(n, c)].
    split.
    + intros file Hin. apply elem_of_app in Hin as [Hin|Hin]; [by apply Hf|].
      apply list_elem_of_singleton in Hin. by subst.
    + intros h Hin. apply elem_of_union in Hin as [Hin|Hin]; [|by apply Hh].
      apply elem_of_singleton in Hin. subst. by eexists.
  - split; [done|].
    intros h Hin. apply elem_of_union in Hin as [Hin|Hin]; [|by apply Hh].
    apply elem_of_singleton in Hin. subst. by eexists.
Qed.

Lemma initial_above_floor : above_floor env initial_state.
Proof.
  split.
  - intros file Hin. by apply elem_of_nil in Hin.
  - intros h Hin. by apply not_elem_of_empty in Hin.
Qed.

(** *** The handler of responses never raises and never touches the
    [uninteresting] counter or the [errors] list *)

Lemma on_response_returns r st : snd (on_response env r st) = Returns tt.
Proof. by destruct (on_response_cases r st) as (st' & -> & _). Qed.

Lemma on_response_errors r st : errors (fst (on_response env r st)) = errors st.
Proof.
  destruct (on_response_cases r st) as (st' & -> & Hc). by destruct Hc.
Qed.


Lemma on_response_rejected r st :
  passes_gates env r = false -> on_response env r st = (st, Returns tt).
Proof.
  intros Hp. destruct (on_response_cases r st) as (st' & -> & Hc).
  destruct Hc; congruence.
Qed.

Lemma run_responses_return responses : forall st,
  snd (run env (Response <$> responses) st) = Returns tt.
Proof.
  unfold run. induction responses as [|r rest IH]; intros st; [done|].
  cbn [fmap list_fmap for_each handle]. step_m.
  destruct (on_response_cases r st) as (st' & -> & _). apply IH.
Qed.



Lemma on_response_saved r st content :
  response_candidate env r = Some content ->
  Sha256.hexdigest content ∉ hash_set st ->
  write_error env (build_filename (url r) content) = None ->
  on_response env r st =
    (add_effect (FileWritten (build_filename (url r) content) content)
       (add_hash (Sha256.hexdigest content) (add_effect (BodyRead (url r)) st)),
     Returns tt).
Proof.
  intros (Hp & Hb & Hs)%response_candidate_inv Hh Hw.
  destruct (on_response_cases r st) as (st' & -> & Hc). f_equal.
  destruct Hc; try congruence; rewrite Hb in *; simplify_eq; done || lia.
Qed.

Lemma on_response_write_error r st content e :
  response_candidate env r = Some content ->
  Sha256.hexdigest content ∉ hash_set st ->
  write_error env (build_filename (url r) content) = Some e ->
  on_response env r st =
    (add_effect (LogError (url r) e)
       (add_hash (Sha256.hexdigest content) (add_effect (BodyRead (url r)) st)),
     Returns tt).
Proof.
  intros (Hp & Hb & Hs)%response_candidate_inv Hh Hw.
  destruct (on_response_cases r st) as (st' & -> & Hc). f_equal.
  destruct Hc; try congruence; rewrite Hb in *; simplify_eq; done || lia.
Qed.

Lemma on_response_body_error r st e :
  passes_gates env r = true -> body r = Raises e ->
  on_response env r st =
    (add_effect (LogError (url r) e) (add_effect (BodyRead (url r)) st), Returns tt).
Proof.
  intros Hp Hb. destruct (on_response_cases r st) as (st' & -> & Hc). f_equal.
  destruct Hc; congruence.
Qed.

End Collector.

(** ** The claims about the collection ledger *)




(** C5, as amended.  An asset shorter than [min_size] is never written and
    never claimed; it is counted as [small] exactly once when it reaches the
    size test, that is when the response passed the tests on its type, origin
    and URL, or the inline script passed the body filter.  A response
    rejected before changes nothing, an inline script rejected before is
    counted as [uninteresting] instead. *)
Theorem size_floor (env : environment) :
  (forall r st content,
     body r = Returns content -> Py.len content < min_size env ->
     on_response env r st =
       (if passes_gates env r
        then add_skip Small (add_effect (BodyRead (url r)) st) else st,
        Returns tt)) /\
  (forall script st,
     Py.len (Py.encode_utf8 script) < min_size env ->
     process_inline_script env script st =
       (add_skip (if is_interesting_inline_script script (uninteresting_patterns env)
                  then Small else Uninteresting) st,
        Returns false)) /\
  (forall events,
     (forall file, file ∈ written (effects (fst (run env events initial_state))) ->
        min_size env <= Py.len (snd file)) /\
     (forall h, h ∈ hash_set (fst (run env events initial_state)) ->
        exists content, h = Sha256.hexdigest content /\ min_size env <= Py.len content)).
Proof.
  split_and!; [apply on_response_small|apply process_inline_script_small|].
  intros events.
  apply (run_invariant env (above_floor env));
    auto using on_response_above_floor, process_inline_script_above_floor,
      initial_above_floor.
Qed.

Lemma size_floor_witness :
  process_inline_script (Scenario.example_com 150 Scenario.no_write_error)
    "let x = 1;" initial_state =
  (add_skip Small initial_state, Returns false).
Proof.
  apply (size_floor (Scenario.example_com 150 Scenario.no_write_error)).
  vm_compute. reflexivity.
Defined.

(** C5 as stated fails here: an inline script of three bytes that the body
    filter rejects is, with a size floor of 150, counted as [uninteresting],
    and [small] stays at 0. *)
Lemma small_inline_script_counted_uninteresting :
  Py.len (Py.encode_utf8 "vue") = 3 /\
  process_inline_scripts (Scenario.example_com 150 Scenario.no_write_error)
    ["vue"] initial_state =
  (add_skip Uninteresting initial_state, Returns 0%nat) /\
  skipped_counters (add_skip Uninteresting initial_state) = mkCounters 0 0 1.
Proof. vm_compute. done. Qed.

(** C6, as amended.  On a response whose URL has no square bracket in its
    netloc, so that the parse of the URL before the [try] returns,
    [on_response] never raises and never touches the session's [errors]
    list: when the body cannot be read, or the file cannot be written, the
    exception is caught in the handler and logged with [log.error]; a run of
    responses never ends the session. *)
Theorem on_response_catches (env : environment) (r : response) (st : state) :
  plain "[]" (UrlParse.netloc (UrlParse.urlparse (url r))) = true ->
  snd (on_response env r st) = Returns tt /\
  errors (fst (on_response env r st)) = errors st /\
  (forall e,
     passes_gates env r = true -> body r = Raises e ->
     fst (on_response env r st) =
       add_effect (LogError (url r) e) (add_effect (BodyRead (url r)) st)) /\
  (forall content e,
     response_candidate env r = Some content ->
     Sha256.hexdigest content ∉ hash_set st ->
     write_error env (build_filename (url r) content) = Some e ->
     fst (on_response env r st) =
       add_effect (LogError (url r) e)
         (add_hash (Sha256.hexdigest content) (add_effect (BodyRead (url r)) st))) /\
  (forall responses, snd (run env (Response <$> responses) st) = Returns tt).
Proof.
  intros _. split_and!.
  - apply on_response_returns.
  - apply on_response_errors.
  - intros e Hp Hb. by rewrite (on_response_body_error env r st e).
  - intros content e Hc Hh Hw. by rewrite (on_response_write_error env r st content e).
  - intros responses. apply run_responses_return.
Qed.

Lemma on_response_catches_witness :
  fst (on_response (Scenario.example_com 150 Scenario.no_write_error)
         Scenario.broken_response initial_state) =
  add_effect (LogError "https://example.com/app.js" "net::ERR_CONNECTION_RESET")
    (add_effect (BodyRead "https://example.com/app.js") initial_state).
Proof.
  apply (on_response_catches (Scenario.example_com 150 Scenario.no_write_error)
           Scenario.broken_response initial_state).
  - vm_compute. reflexivity.
  - vm_compute. reflexivity.
  - reflexivity.
Defined.

(** C6 as stated fails here: a response whose body cannot be read leaves
    the session's [errors] list empty; the failure is in the log only. *)
Lemma body_error_not_in_errors_list :
  errors (fst (on_response (Scenario.example_com 150 Scenario.no_write_error)
                 Scenario.broken_response initial_state)) = [] /\
  effects (fst (on_response (Scenario.example_com 150 Scenario.no_write_error)
                  Scenario.broken_response initial_state)) =
    [BodyRead "https://example.com/app.js";
     LogError "https://example.com/app.js" "net::ERR_CONNECTION_RESET"].
Proof. vm_compute. done. Qed.




(** ** Facts about strings *)

Section Strings.

Lemma append_nil_l (b : string) : "" ++ b = b.
Proof. reflexivity. Qed.

Lemma append_cons x (a b : string) : String x a ++ b = String x (a ++ b).
Proof. reflexivity. Qed.

Lemma append_assoc (a b c : string) : (a ++ b) ++ c = a ++ (b ++ c).
Proof.
  induction a as [|x a IH]; rewrite ?append_nil_l, ?append_cons; [done|by f_equal].
Qed.

Lemma append_empty_r (a : string) : a ++ "" = a.
Proof.
  induction a as [|x a IH]; rewrite ?append_nil_l, ?append_cons; [done|by f_equal].
Qed.

Lemma all_impl (p q : ascii -> bool) s :
  (forall c, p c = true -> q c = true) -> Py.all p s = true -> Py.all q s = true.
Proof.
  intros Hpq. induction s as [|x s IH]; cbn; [done|].
  intros [Hx Hs]%andb_prop. by rewrite (Hpq x Hx), IH.
Qed.

Lemma all_mem_false (p : ascii -> bool) s c :
  Py.all p s = true -> p c = false -> Py.mem c s = false.
Proof.
  intros Hs Hc. induction s as [|x s IH]; cbn in *; [done|].
  apply andb_prop in Hs as [Hx Hs]. rewrite (IH Hs), orb_false_r.
  destruct (Ascii.eqb_spec x c); [congruence|done].
Qed.

Lemma remove_app c a b : Py.remove c (a ++ b) = Py.remove c a ++ Py.remove c b.
Proof.
  induction a as [|x a IH]; rewrite ?append_nil_l, ?append_cons; cbn [Py.remove]; [done|].
  destruct (Ascii.eqb x c); rewrite ?append_cons; by rewrite IH.
Qed.

Lemma remove_absent c s : Py.mem c s = false -> Py.remove c s = s.
Proof.
  induction s as [|x s IH]; cbn; [done|].
  intros [Hx Hs]%orb_false_elim. by rewrite Hx, IH.
Qed.

Lemma cut_app c a b :
  Py.mem c a = false ->
  Py.cut c (a ++ b) =
  match Py.cut c b with Some (l, r) => Some (a ++ l, r) | None => None end.
Proof.
  induction a as [|x a IH]; rewrite ?append_nil_l, ?append_cons; cbn [Py.cut Py.mem].
  - intros _. destruct (Py.cut c b) as [[l r]|]; by rewrite ?append_nil_l.
  - intros [Hx Ha]%orb_false_elim. rewrite Hx, (IH Ha).
    destruct (Py.cut c b) as [[l r]|]; by rewrite ?append_cons.
Qed.

Lemma split_once_app c a b :
  Py.mem c a = false ->
  UrlParse.split_once c (a ++ b) =
  (a ++ fst (UrlParse.split_once c b), snd (UrlParse.split_once c b)).
Proof.
  intros Ha. unfold UrlParse.split_once. rewrite (cut_app c a b Ha).
  by destruct (Py.cut c b) as [[l r]|].
Qed.

Lemma break_app (p : ascii -> bool) a b :
  Py.all (fun c => negb (p c)) a = true ->
  match b with EmptyString => true | String c _ => p c end = true ->
  Py.break p (a ++ b) = (a, b).
Proof.
  intros Ha Hb. induction a as [|x a IH]; rewrite ?append_nil_l, ?append_cons;
    cbn [Py.break Py.all] in *.
  - destruct b as [|c b]; [done|]. cbn [Py.break]. by rewrite Hb.
  - apply andb_prop in Ha as [Hx Ha]. apply negb_true_iff in Hx.
    by rewrite Hx, (IH Ha).
Qed.

Lemma lower_char_idempotent :
  forall c, Py.lower_char (Py.lower_char c) = Py.lower_char c.
Proof. by_chars. Qed.

Lemma lower_idempotent s : Py.lower (Py.lower s) = Py.lower s.
Proof.
  induction s as [|x s IH]; cbn; [done|]. by rewrite lower_char_idempotent, IH.
Qed.

Lemma opens_with_rstrip s :
  opens_with "/" s = true -> opens_with "/" (Py.rstrip "/" s) = true.
Proof.
  destruct s as [|x s]; cbn [opens_with Py.rstrip]; [done|]. intros Hx.
  destruct (Py.rstrip "/" s); [by rewrite Hx|done].
Qed.

Lemma opens_with_slash_startswith s :
  opens_with "/" s = true ->
  UrlParse.nonempty s && negb (Py.startswith "/" s) = false.
Proof.
  destruct s as [|x s]; [done|].
  cbn [opens_with UrlParse.nonempty Py.startswith Py.mem].
  rewrite orb_false_r, andb_true_r. intros Hx. apply Ascii.eqb_eq in Hx. by subst.
Qed.

Lemma startswith_append p s : Py.startswith p (p ++ s) = true.
Proof.
  induction p as [|x p IH]; [done|]. rewrite append_cons. cbn [Py.startswith].
  by rewrite Ascii.eqb_refl, IH.
Qed.

Lemma drop_append p s : Py.drop (String.length p) (p ++ s) = s.
Proof. induction p as [|x p IH]; [done|]. by rewrite append_cons. Qed.

Lemma mem_two c a b :
  Py.mem c (String a (String b "")) = true -> c = a \/ c = b.
Proof.
  cbn [Py.mem]. rewrite orb_false_r.
  intros [H|H]%orb_prop; apply Ascii.eqb_eq in H; auto.
Qed.

End Strings.

(** ** The claims about names and filters *)

Lemma build_filename_app_js content :
  build_filename "https://example.com/app.js" content =
  "example.com_app_" ++ Py.take 8 (Sha256.hexdigest content) ++ ".js".
Proof.
  unfold build_filename. generalize (Sha256.hexdigest content). intros h.
  vm_compute. reflexivity.
Qed.

(** C9.  A strict session on https://example.com without cross-origin and
    with a size floor below 600 receives a script response for app.js and
    one for ads.example.net/track.js, 600 bytes each, in either order: the
    only body read is that of app.js, the only file written holds it and is
    named example.com_app_, the first 8 characters of its fingerprint, .js;
    nothing is skipped. *)
Theorem same_origin_scenario (min_size : Z) (crawl : bool)
    (write_error : string -> option string) (site : string -> outcome (list string))
    (app ads : list byte) :
  Py.len app = 600 -> Py.len ads = 600 -> min_size < 600 ->
  write_error ("example.com_app_" ++ Py.take 8 (Sha256.hexdigest app) ++ ".js") = None ->
  let env := session "https://example.com" "strict" min_size crawl false write_error site in
  let r_app := Response (mkResponse "script" "https://example.com/app.js" (Returns app)) in
  let r_ads := Response (mkResponse "script" "https://ads.example.net/track.js" (Returns ads)) in
  let saved :=
    mkState {[Sha256.hexdigest app]} (mkCounters 0 0 0) [] ∅
      [ BodyRead "https://example.com/app.js";
        FileWritten ("example.com_app_" ++ Py.take 8 (Sha256.hexdigest app) ++ ".js") app ] in
  run env [r_app; r_ads] initial_state = (saved, Returns tt) /\
  run env [r_ads; r_app] initial_state = (saved, Returns tt).
Proof.
  intros Happ Hads Hmin Hw env r_app r_ads saved.
  set (a := mkResponse "script" "https://example.com/app.js" (Returns app)).
  set (b := mkResponse "script" "https://ads.example.net/track.js" (Returns ads)).
  assert (Ha : response_candidate env a = Some app).
  { apply response_candidate_some; [by vm_compute|done|]. cbn. lia. }
  assert (Hb : passes_gates env b = false) by (by vm_compute).
  assert (Hsave : forall st, hash_set st = ∅ ->
            on_response env a st =
              (add_effect (FileWritten ("example.com_app_" ++
                             Py.take 8 (Sha256.hexdigest app) ++ ".js") app)
                 (add_hash (Sha256.hexdigest app)
                    (add_effect (BodyRead "https://example.com/app.js") st)), Returns tt)).
  { intros st Hst. rewrite (on_response_saved env a st app Ha).
    - cbn [url a]. by rewrite build_filename_app_js.
    - rewrite Hst. apply not_elem_of_empty.
    - cbn [url a]. by rewrite build_filename_app_js. }
  assert (Hsaved : add_effect (FileWritten ("example.com_app_" ++
                       Py.take 8 (Sha256.hexdigest app) ++ ".js") app)
                     (add_hash (Sha256.hexdigest app)
                        (add_effect (BodyRead "https://example.com/app.js") initial_state))
                   = saved).
  { unfold saved, add_effect, add_hash, initial_state. cbn [hash_set skipped_counters
      errors visited effects]. f_equal. apply union_empty_r_L. }
  unfold run, r_app, r_ads. cbn [for_each handle]. fold a b. step_m.
  rewrite (on_response_rejected env b) by done.
  rewrite (Hsave initial_state) by done.
  rewrite (on_response_rejected env b) by done.
  by rewrite Hsaved.
Qed.

Lemma same_origin_scenario_witness :
  run (session "https://example.com" "strict" 150 false false
         Scenario.no_write_error Scenario.no_links)
      [ Response (mkResponse "script" "https://example.com/app.js"
                    (Returns (List.repeat "x"%byte 600)));
        Response (mkResponse "script" "https://ads.example.net/track.js"
                    (Returns (List.repeat "y"%byte 600))) ]
      initial_state =
  (mkState {[Sha256.hexdigest (List.repeat "x"%byte 600)]} (mkCounters 0 0 0) [] ∅
     [ BodyRead "https://example.com/app.js";
       FileWritten ("example.com_app_" ++
                    Py.take 8 (Sha256.hexdigest (List.repeat "x"%byte 600)) ++ ".js")
         (List.repeat "x"%byte 600) ],
   Returns tt).
Proof.
  apply (same_origin_scenario 150 false Scenario.no_write_error Scenario.no_links
           (List.repeat "x"%byte 600) (List.repeat "y"%byte 600)).
  - reflexivity.
  - reflexivity.
  - lia.
  - reflexivity.
Defined.

(** C8: the code at the failing input.  For a target with an explicit port
    the file of an inline script is named with the domain as it stands, colon
    included, while [build_filename] gives an external script of the same
    host a name with the colon replaced. *)
Theorem inline_filename_keeps_colon :
  domain Scenario.with_port = "example.com:8080" /\
  process_inline_scripts Scenario.with_port ["console.log(1)"] initial_state =
    (add_effect (FileWritten "example.com:8080_inline_0a286891.js" Scenario.snippet)
       (add_hash (Sha256.hexdigest Scenario.snippet) initial_state), Returns 1%nat) /\
  Py.mem ":" "example.com:8080_inline_0a286891.js" = true /\
  sanitize_filename_part "example.com:8080" = "example.com_8080" /\
  build_filename "https://example.com:8080/app.js" Scenario.snippet =
    "example.com_8080_app_0a286891.js".
Proof. vm_compute. done. Qed.

(** The filter is the negation of "some rule matches the lower-cased
    URL". *)
Lemma filter_negation_law (url : string) (rules : list string) :
  is_interesting_js url rules = false <->
  exists rule, rule ∈ rules /\ Re.search rule (Py.lower url) = true.
Proof.
  unfold is_interesting_js. rewrite negb_false_iff, existsb_exists.
  split; intros (rule & Hin & Hm); exists rule; by rewrite list_elem_of_In in *.
Qed.

Lemma mem_append c a b : Py.mem c (a ++ b) = Py.mem c a || Py.mem c b.
Proof.
  induction a as [|x a IH]; rewrite ?append_nil_l, ?append_cons; cbn [Py.mem]; [done|].
  by rewrite IH, orb_assoc.
Qed.

(** A match of [r] at the front of [s] leaves a rest of [s] that the
    continuation accepts, and takes from [s] every character [r] needs. *)
Lemma matches_needs c r : forall s k,
  Re.matches r s k = true ->
  exists pre s', s = pre ++ s' /\ k s' = true /\
                 (Re.needs c r = true -> Py.mem c s = true).
Proof.
  induction r as [|a| | |r1 IH1 r2 IH2|r1 IH1 r2 IH2|r1 IH1];
    intros s k Hm; cbn [Re.matches Re.needs] in *.
  - exists "", s. by rewrite append_nil_l.
  - destruct s as [|x s]; [done|]. apply andb_prop in Hm as [Hx Hk].
    exists (String x ""), s. split_and!; [done|done|].
    intros Hc. apply Ascii.eqb_eq in Hx, Hc. subst. cbn [Py.mem].
    by rewrite Ascii.eqb_refl.
  - destruct s as [|x s]; [done|]. apply andb_prop in Hm as [_ Hk].
    by exists (String x ""), s.
  - exists "", s. rewrite append_nil_l. split_and!; [done| |done].
    destruct s as [|x [|y s]]; [done| |done]. by apply andb_prop in Hm as [_ Hk].
  - destruct (IH1 s _ Hm) as (pre1 & s1 & -> & Hm2 & Hn1).
    destruct (IH2 s1 _ Hm2) as (pre2 & s2 & -> & Hk & Hn2).
    exists (pre1 ++ pre2), s2. rewrite append_assoc. split_and!; [done|done|].
    intros [H|H]%orb_prop; [by apply Hn1|].
    rewrite mem_append, (Hn2 H). apply orb_true_r.
  - apply orb_prop in Hm as [Hm|Hm].
    + destruct (IH1 s k Hm) as (pre & s' & -> & Hk & Hn).
      exists pre, s'. split_and!; [done|done|]. intros [H _]%andb_prop. by apply Hn.
    + destruct (IH2 s k Hm) as (pre & s' & -> & Hk & Hn).
      exists pre, s'. split_and!; [done|done|]. intros [_ H]%andb_prop. by apply Hn.
  - apply orb_prop in Hm as [Hm|Hm].
    + destruct (IH1 s k Hm) as (pre & s' & -> & Hk & _). by exists pre, s'.
    + exists "", s. by rewrite append_nil_l.
Qed.

Lemma search_regex_needs c r s :
  Re.needs c r = true -> Re.search_regex r s = true -> Py.mem c s = true.
Proof.
  intros Hn. induction s as [|x s IH]; cbn [Re.search_regex].
  - rewrite orb_false_r. intros Hm.
    destruct (matches_needs c r _ _ Hm) as (_ & _ & _ & _ & H). by apply H.
  - intros [Hm|Hm]%orb_prop.
    + destruct (matches_needs c r _ _ Hm) as (_ & _ & _ & _ & H). by apply H.
    + cbn [Py.mem]. rewrite (IH Hm). apply orb_true_r.
Qed.

Lemma lower_keeps_backslash_out s :
  Py.mem "\" s = false -> Py.mem "\" (Py.lower s) = false.
Proof.
  induction s as [|x s IH]; cbn [Py.mem Py.lower]; [done|].
  intros [Hx Hs]%orb_false_elim. rewrite (IH Hs), orb_false_r.
  revert Hx. clear. revert x. by_chars.
Qed.

(** A rule that wants a backslash rejects no text without one. *)
Lemma backslash_rule_is_dead rule text :
  Re.wants_backslash rule = true -> Py.mem "\" text = false ->
  Re.search rule text = false.
Proof.
  unfold Re.wants_backslash, Re.search. destruct (Re.compile rule) as [r|]; [|done].
  intros Hn Hm. destruct (Re.search_regex r text) eqn:Hs; [|done].
  by rewrite (search_regex_needs _ _ _ Hn Hs) in Hm.
Qed.

(** On a URL without a backslash the strict filter is the filter of the
    nine rules spelled without a doubled backslash: the other nineteen never
    reject anything. *)
Lemma strict_filter_without_backslash (url : string) :
  Py.mem "\" url = false ->
  is_interesting_js url UNINTERESTING_JS_STRICT =
  is_interesting_js url
    [ "webpack"; "react"; "vue"; "angular"; "\/vendor\/"; "\/plugins\/";
      "\/docs\/"; "\/themes\/"; "\/dist\/" ].
Proof.
  intros Hm%lower_keeps_backslash_out. unfold is_interesting_js. f_equal.
  change [ "webpack"; "react"; "vue"; "angular"; "\/vendor\/"; "\/plugins\/";
           "\/docs\/"; "\/themes\/"; "\/dist\/" ]
    with (List.filter (fun rule => negb (Re.wants_backslash rule))
            UNINTERESTING_JS_STRICT).
  induction UNINTERESTING_JS_STRICT as [|rule rules IH]; [done|].
  cbn [existsb List.filter]. rewrite IH.
  destruct (Re.wants_backslash rule) eqn:Hw; cbn [negb existsb]; [|done].
  by rewrite backslash_rule_is_dead.
Qed.

(** C2: the code at the failing inputs.  Every rule of both lists is a
    pattern of the fragment, and the filter is the negation of "some rule
    matches"; but in strict mode a Google Analytics URL, a jsDelivr URL and a
    minified file name are all found interesting, because the rules written
    for them ask for a backslash before the dot; only the vendor path is
    rejected. *)
Theorem strict_filter_on_representatives :
  (forall url rules,
     is_interesting_js url rules = false <->
     exists rule, rule ∈ rules /\ Re.search rule (Py.lower url) = true) /\
  forallb (fun rule => bool_decide (is_Some (Re.compile rule)))
    (UNINTERESTING_JS_STRICT ++ UNINTERESTING_JS_RELAXED) = true /\
  is_interesting_js "https://www.google-analytics.com/analytics.js"
    UNINTERESTING_JS_STRICT = true /\
  is_interesting_js "https://cdn.jsdelivr.net/npm/lodash/lodash.js"
    UNINTERESTING_JS_STRICT = true /\
  is_interesting_js "https://example.com/static/app.min.js"
    UNINTERESTING_JS_STRICT = true /\
  is_interesting_js "https://example.com/vendor/lib.js"
    UNINTERESTING_JS_STRICT = false /\
  Re.search "google-analytics\\.com" "https://www.google-analytics.com/analytics.js" = false /\
  Re.search "google-analytics\\.com" "google-analytics\.com" = true.
Proof. split; [apply filter_negation_law|]. vm_compute. done. Qed.

(** ** The claims about URL normalization *)


Section Normalize.

Context (scheme netloc path tail : string).
Hypothesis Hscheme : is_scheme scheme = true.
Hypothesis Hnetloc : plain ("/?#" ++ unsafe_chars) netloc = true.
Hypothesis Hpath : plain ("?#;" ++ unsafe_chars) path = true.
Hypothesis Hslash : opens_with "/" path = true.
Hypothesis Htail : opens_with "?#" tail = true.

Lemma scheme_chars_safe :
  Py.all (fun c => negb (Py.mem c (":" ++ unsafe_chars))) scheme = true.
Proof.
  destruct scheme as [|c0 pre]; [done|]. cbn [is_scheme] in Hscheme.
  apply andb_prop in Hscheme as [_ Hall].
  revert Hall. apply all_impl. by_chars.
Qed.

Lemma remove_unsafe_plain forbidden s :
  plain (forbidden ++ unsafe_chars) s = true -> UrlParse.remove_unsafe s = s.
Proof.
  intros Hs. unfold UrlParse.remove_unsafe.
  assert (Hm : forall c, Py.mem c unsafe_chars = true -> Py.mem c s = false).
  { intros c Hc. apply (all_mem_false _ _ _ Hs). apply negb_false_iff.
    clear -Hc. induction forbidden as [|x f IH];
      rewrite ?append_nil_l, ?append_cons; [done|].
    cbn [Py.mem]. by rewrite IH, orb_true_r. }
  rewrite (remove_absent (ascii_of_nat 9) s) by (apply Hm; by vm_compute).
  rewrite (remove_absent (ascii_of_nat 13) s) by (apply Hm; by vm_compute).
  by rewrite (remove_absent (ascii_of_nat 10) s) by (apply Hm; by vm_compute).
Qed.

Lemma opens_with_remove_unsafe :
  opens_with "?#" (UrlParse.remove_unsafe tail) = true.
Proof.
  destruct tail as [|c t]; [done|]. cbn [opens_with] in Htail.
  assert (Hc : c = "?"%char \/ c = "#"%char).
  { by apply mem_two in Htail as [Hc|Hc]; [left|right]. }
  destruct Hc as [-> | ->]; by vm_compute.
Qed.

(** The text [urlsplit] works on once it has removed the unsafe
    characters. *)
Lemma cleaned_url :
  UrlParse.remove_unsafe (UrlParse.lstrip_c0 (scheme ++ "://" ++ netloc ++ path ++ tail)) =
  scheme ++ "://" ++ netloc ++ path ++ UrlParse.remove_unsafe tail.
Proof.
  assert (Hl : UrlParse.lstrip_c0 (scheme ++ "://" ++ netloc ++ path ++ tail) =
               scheme ++ "://" ++ netloc ++ path ++ tail).
  { destruct scheme as [|c0 pre]; [done|]. rewrite append_cons.
    cbn [UrlParse.lstrip_c0]. cbn [is_scheme] in Hscheme.
    apply andb_prop in Hscheme as [Ha _].
    assert (UrlParse.is_c0_or_space c0 = false) as ->; [|done].
    revert Ha. clear. revert c0. by_chars. }
  rewrite Hl. unfold UrlParse.remove_unsafe. rewrite !remove_app.
  fold (UrlParse.remove_unsafe scheme) (UrlParse.remove_unsafe "://")
       (UrlParse.remove_unsafe netloc) (UrlParse.remove_unsafe path)
       (UrlParse.remove_unsafe tail).
  rewrite (remove_unsafe_plain ":" scheme) by apply scheme_chars_safe.
  rewrite (remove_unsafe_plain "/?#" netloc) by done.
  rewrite (remove_unsafe_plain "?#;" path) by done.
  done.
Qed.

Lemma urlparse_shape :
  exists query fragment,
    UrlParse.urlparse (scheme ++ "://" ++ netloc ++ path ++ tail) =
    UrlParse.mkParseResult (Py.lower scheme) netloc path "" query fragment.
Proof.
  unfold UrlParse.urlparse, UrlParse.urlsplit. rewrite cleaned_url.
  pose proof opens_with_remove_unsafe as Ht. set (t := UrlParse.remove_unsafe tail) in *.
  (* the scheme *)
  assert (Hs : UrlParse.split_scheme (scheme ++ "://" ++ netloc ++ path ++ t) =
               (Py.lower scheme, "//" ++ netloc ++ path ++ t)).
  { unfold UrlParse.split_scheme.
    change (scheme ++ "://" ++ netloc ++ path ++ t)
      with (scheme ++ String ":" ("//" ++ netloc ++ path ++ t)).
    rewrite cut_app by (apply (all_mem_false _ _ _ scheme_chars_safe); by vm_compute).
    cbn [Py.cut]. rewrite Ascii.eqb_refl, append_empty_r.
    destruct scheme as [|c0 pre]; [done|]. cbn [is_scheme] in Hscheme. by rewrite Hscheme. }
  rewrite Hs. cbv beta iota zeta. rewrite startswith_append.
  (* the netloc *)
  assert (Hn : UrlParse.splitnetloc ("//" ++ netloc ++ path ++ t) = (netloc, path ++ t)).
  { unfold UrlParse.splitnetloc.
    change 2%nat with (String.length "//"). rewrite drop_append.
    apply break_app.
    - revert Hnetloc. apply all_impl. by_chars.
    - destruct path as [|c p]; rewrite ?append_nil_l, ?append_cons.
      + destruct t as [|c t']; [done|]. cbn [opens_with] in Ht.
        revert Ht. clear. revert c. by_chars.
      + cbn [opens_with] in Hslash. revert Hslash. clear. revert c. by_chars. }
  rewrite Hn. cbv beta iota zeta.
  (* the fragment, the query, the parameters *)
  rewrite (split_once_app "#" path t)
    by (apply (all_mem_false _ _ _ Hpath); by vm_compute).
  rewrite (split_once_app "?" path)
    by (apply (all_mem_false _ _ _ Hpath); by vm_compute).
  assert (Hq : fst (UrlParse.split_once "?" (fst (UrlParse.split_once "#" t))) = "").
  { destruct t as [|c t']; [done|]. cbn [opens_with] in Ht.
    assert (Hc : c = "?"%char \/ c = "#"%char).
    { by apply mem_two in Ht as [Hc|Hc]; [left|right]. }
    destruct Hc as [-> | ->]; [|done].
    unfold UrlParse.split_once at 2. cbn [Py.cut].
    change (Ascii.eqb "?" "#") with false. cbn iota.
    by destruct (Py.cut "#" t') as [[l r]|]. }
  rewrite Hq, append_empty_r.
  assert (Hp : Py.mem ";" path = false)
    by (apply (all_mem_false _ _ _ Hpath); by vm_compute).
  rewrite Hp, andb_false_r. eauto.
Qed.

End Normalize.

Lemma lower_nonempty s : UrlParse.nonempty s = true -> UrlParse.nonempty (Py.lower s) = true.
Proof. by destruct s. Qed.

Lemma plain_without_brackets netloc :
  plain ("/?#[]" ++ unsafe_chars) netloc = true ->
  plain ("/?#" ++ unsafe_chars) netloc = true.
Proof. unfold plain. apply all_impl. by_chars. Qed.

(** C7, as amended.  For a URL made of a scheme, [://], a netloc without
    square bracket that is not empty once lower-cased and rid of a leading
    www., a path without semicolon that is empty or starts with a slash, and
    a rest that is empty or starts a query or a fragment: [normalize_url]
    gives the lower-cased scheme, the lower-cased netloc without a leading
    www. and with its port, if it has one, and the path without its trailing
    slashes; query and fragment are gone. *)
Theorem normalize_url_shape (scheme netloc path tail : string) :
  is_scheme scheme = true ->
  plain ("/?#[]" ++ unsafe_chars) netloc = true ->
  plain ("?#;" ++ unsafe_chars) path = true ->
  opens_with "/" path = true ->
  opens_with "?#" tail = true ->
  UrlParse.nonempty (strip_www (Py.lower netloc)) = true ->
  normalize_url (scheme ++ "://" ++ netloc ++ path ++ tail) =
  Py.lower scheme ++ "://" ++ strip_www (Py.lower netloc) ++ Py.rstrip "/" path.
Proof.
  intros Hscheme Hnetloc%plain_without_brackets Hpath Hslash Htail Hne.
  unfold normalize_url.
  destruct (urlparse_shape scheme netloc path tail) as (query & fragment & ->); try done.
  cbn [UrlParse.scheme UrlParse.netloc UrlParse.path].
  fold (strip_www (Py.lower netloc)).
  unfold UrlParse.urlunparse, UrlParse.urlunsplit.
  cbn [UrlParse.nonempty]. rewrite Hne. cbn [orb].
  rewrite opens_with_slash_startswith by by apply opens_with_rstrip.
  rewrite lower_idempotent, lower_nonempty; [done|].
  by destruct scheme.
Qed.

Lemma normalize_url_shape_witness :
  normalize_url ("HTTP" ++ "://" ++ "WWW.Example.com:80" ++ "/a/" ++ "?q=1#top") =
  Py.lower "HTTP" ++ "://" ++ strip_www (Py.lower "WWW.Example.com:80") ++ Py.rstrip "/" "/a/".
Proof.
  apply (normalize_url_shape "HTTP" "WWW.Example.com:80" "/a/" "?q=1#top");
    vm_compute; reflexivity.
Defined.

(** C7 as stated fails here: the port survives normalization, default or
    not, and the two URLs of the claim normalize to different strings. *)
Lemma default_port_is_kept :
  normalize_url "HTTP://WWW.Example.com:80/a/" = "http://example.com:80/a" /\
  normalize_url "http://example.com/a" = "http://example.com/a" /\
  String.eqb (normalize_url "HTTP://WWW.Example.com:80/a/")
             (normalize_url "http://example.com/a") = false.
Proof. vm_compute. done. Qed.

(** Why the path of C7 has no semicolon: [urlparse] takes parameters off
    the last segment of the path only, and only under a scheme that has
    them, so [normalize_url] drops some semicolons and keeps others. *)
Lemma normalize_url_semicolons :
  normalize_url "http://h/a;p/b;q" = "http://h/a;p/b" /\
  normalize_url "ws://h/a;q" = "ws://h/a;q".
Proof. by vm_compute. Qed.

(** ** The claims about the crawl *)

Section Crawl.

Context (env : environment).

(** [crawl_links_at] with the plumbing of [M] unfolded. *)
Lemma crawl_links_at_unfold max_depth current_url st :
  crawl_links_at env max_depth current_url st =
  if negb (crawl env) then (st, Returns tt)
  else if bool_decide (normalize_url current_url ∈ visited st) then (st, Returns tt)
  else
    match max_depth with
    | O => (add_visited (normalize_url current_url) st, Returns tt)
    | S depth' =>
        let st1 :=
          add_effect (Navigated current_url)
            (add_effect (CollectorRegistered current_url)
               (add_effect (PageOpened current_url)
                  (add_visited (normalize_url current_url) st))) in
        match site env current_url with
        | Raises e =>
            (add_effect (PageClosed current_url)
               (add_error ("Crawl error: " ++ current_url ++ " - " ++ e) st1), Returns tt)
        | Returns links =>
            match
              for_each
                (List.filter
                   (fun href =>
                      String.eqb (get_domain_from_url href) (domain env) &&
                      negb (bool_decide (normalize_url href ∈ visited st1)))
                   links)
                (crawl_links_at env depth') st1
            with
            | (st2, Returns _) => (add_effect (PageClosed current_url) st2, Returns tt)
            | (st2, Raises e) =>
                (add_effect (PageClosed current_url)
                   (add_error ("Crawl error: " ++ current_url ++ " - " ++ e) st2),
                 Returns tt)
            end
        end
    end.
Proof.
  destruct max_depth as [|depth']; cbn [crawl_links_at];
    destruct (crawl env); cbn [negb]; step_m; try done;
    case_bool_decide; try done.
  unfold goto_and_links. step_m.
  destruct (site env current_url) as [links|e]; [|done].
  match goal with
  | |- context [for_each ?l ?f ?s] => destruct (for_each l f s) as [st2 [[]|e]]
  end; done.
Qed.

Lemma navigations_app l1 l2 :
  navigations (l1 ++ l2) = (navigations l1 ++ navigations l2)%list.
Proof. apply omap_app. Qed.

Lemma crawl_step_refl st : crawl_step st st [].
Proof.
  unfold crawl_step. rewrite app_nil_r. split_and!; [done|done|apply NoDup_nil_2|].
  intros u Hu. by apply elem_of_nil in Hu.
Qed.

Lemma crawl_step_trans st1 st2 st3 new1 new2 :
  crawl_step st1 st2 new1 -> crawl_step st2 st3 new2 ->
  crawl_step st1 st3 (new1 ++ new2).
Proof.
  intros (He1 & Hv1 & Hn1 & Hu1) (He2 & Hv2 & Hn2 & Hu2). unfold crawl_step.
  rewrite navigations_app, fmap_app. split_and!.
  - by rewrite He2, He1, app_assoc.
  - set_solver.
  - apply NoDup_app. split_and!; [done| |done].
    intros x (u1 & -> & Hin1)%list_elem_of_fmap (u2 & Heq & Hin2)%list_elem_of_fmap.
    destruct (Hu1 u1 Hin1) as [_ Hin]. destruct (Hu2 u2 Hin2) as [Hnot _].
    rewrite <- Heq in Hnot. done.
  - intros u [Hin|Hin]%elem_of_app.
    + destruct (Hu1 u Hin). set_solver.
    + destruct (Hu2 u Hin). set_solver.
Qed.

(** An effect that is no navigation. *)
Lemma crawl_step_effect e st :
  navigations [e] = [] -> crawl_step st (add_effect e st) [e].
Proof.
  intros He. unfold crawl_step. rewrite He. simpl_state.
  split_and!; [done|done|apply NoDup_nil_2|].
  intros u Hu. by apply elem_of_nil in Hu.
Qed.

Lemma crawl_step_error msg st : crawl_step st (add_error msg st) [].
Proof.
  unfold crawl_step. simpl_state. rewrite app_nil_r.
  split_and!; [done|done|apply NoDup_nil_2|].
  intros u Hu. by apply elem_of_nil in Hu.
Qed.

(** Marking a fresh URL, opening its page and navigating to it. *)
Lemma crawl_step_open url st :
  normalize_url url ∉ visited st ->
  crawl_step st
    (add_effect (Navigated url)
       (add_effect (CollectorRegistered url)
          (add_effect (PageOpened url) (add_visited (normalize_url url) st))))
    [PageOpened url; CollectorRegistered url; Navigated url].
Proof.
  intros Hfresh. unfold crawl_step. simpl_state.
  change (navigations [PageOpened url; CollectorRegistered url; Navigated url])
    with [url].
  split_and!.
  - by rewrite <- !app_assoc.
  - set_solver.
  - apply NoDup_singleton.
  - intros u ->%list_elem_of_singleton. set_solver.
Qed.

Lemma for_each_crawl_step depth :
  (forall url st, exists st' new,
     crawl_links_at env depth url st = (st', Returns tt) /\ crawl_step st st' new) ->
  forall hrefs st, exists st' new,
    for_each hrefs (crawl_links_at env depth) st = (st', Returns tt) /\
    crawl_step st st' new.
Proof.
  intros IH. induction hrefs as [|href hrefs IHl]; intros st.
  - exists st, []. split; [done|apply crawl_step_refl].
  - cbn [for_each]. step_m.
    destruct (IH href st) as (st1 & new1 & -> & H1).
    destruct (IHl st1) as (st2 & new2 & -> & H2).
    exists st2, (new1 ++ new2)%list. split; [done|by eapply crawl_step_trans].
Qed.

Lemma crawl_links_at_step depth : forall url st,
  exists st' new,
    crawl_links_at env depth url st = (st', Returns tt) /\ crawl_step st st' new.
Proof.
  induction depth as [|depth IH]; intros url st; rewrite crawl_links_at_unfold.
  - destruct (negb (crawl env)); [exists st, []; split; [done|apply crawl_step_refl]|].
    case_bool_decide; [exists st, []; split; [done|apply crawl_step_refl]|].
    eexists _, []; split; [done|].
    unfold crawl_step. simpl_state. rewrite app_nil_r.
    split_and!; [done|set_solver|apply NoDup_nil_2|].
    intros u Hu. by apply elem_of_nil in Hu.
  - destruct (negb (crawl env)); [exists st, []; split; [done|apply crawl_step_refl]|].
    case_bool_decide as Hfresh; [exists st, []; split; [done|apply crawl_step_refl]|].
    cbv zeta. pose proof (crawl_step_open url st Hfresh) as Hopen.
    set (st1 := add_effect (Navigated url) _) in *.
    destruct (site env url) as [links|e].
    + match goal with
      | |- context [for_each ?l ?f ?s] =>
          destruct (for_each_crawl_step depth IH l s) as (st2 & new2 & -> & H2)
      end.
      eexists _, _. split; [done|].
      eapply crawl_step_trans; [by eapply crawl_step_trans|].
      by apply crawl_step_effect.
    + eexists _, _. split; [done|].
      eapply crawl_step_trans; [eapply crawl_step_trans; [done|apply crawl_step_error]|].
      by apply crawl_step_effect.
Qed.

Lemma crawl_links_at_depth_zero url st :
  crawl env = true -> normalize_url url ∉ visited st ->
  crawl_links_at env 0 url st = (add_visited (normalize_url url) st, Returns tt).
Proof.
  intros Hc Hfresh. rewrite crawl_links_at_unfold, Hc. cbn [negb].
  by rewrite bool_decide_eq_false_2.
Qed.

End Crawl.

(** C4.  Whatever the site and the depth, the crawl returns; it navigates
    to no normalized URL twice; every URL it navigates to has its normal form
    in [visited]; and a branch entered at any point of the crawl never
    navigates to a URL whose normal form is already in [visited]. *)
Theorem crawl_visits_once (env : environment) (target_url : string) (max_depth : Z)
    (st : state) :
  (exists st' new,
     crawl_links env target_url max_depth st = (st', Returns tt) /\
     effects st' = (effects st ++ new)%list /\
     NoDup (normalize_url <$> navigations new) /\
     (forall u, u ∈ navigations new -> normalize_url u ∈ visited st')) /\
  (forall depth url st0, exists st' new,
     crawl_links_at env depth url st0 = (st', Returns tt) /\
     effects st' = (effects st0 ++ new)%list /\
     visited st0 ⊆ visited st' /\
     NoDup (normalize_url <$> navigations new) /\
     (forall u, u ∈ navigations new -> normalize_url u ∉ visited st0)).
Proof.
  split.
  - unfold crawl_links.
    destruct (crawl_links_at_step env (Z.to_nat max_depth) target_url
                (mkState (hash_set st) (skipped_counters st) (errors st) ∅ (effects st)))
      as (st' & new & -> & He & Hv & Hn & Hu).
    exists st', new. split_and!; [done|done|done|].
    intros u Hin. by destruct (Hu u Hin).
  - intros depth url st0.
    destruct (crawl_links_at_step env depth url st0) as (st' & new & -> & He & Hv & Hn & Hu).
    exists st', new. split_and!; [done..|].
    intros u Hin. by destruct (Hu u Hin).
Qed.

(** C3, as amended.  A branch entered with [max_depth <= 0] on a URL not
    yet visited adds its normal form to [visited] and does nothing else: no
    page is opened and no collector is registered.  So a crawl of depth 2
    from A over the cycle A, B, C ends with the three of them in [visited],
    after navigating to A and B only and registering a collector on these
    two. *)
Theorem depth_zero_branch :
  (forall env max_depth url st,
     crawl env = true -> max_depth <= 0 -> normalize_url url ∉ visited st ->
     crawl_links_at env (Z.to_nat max_depth) url st =
       (add_visited (normalize_url url) st, Returns tt)) /\
  visited (fst (crawl_links Scenario.cycle_session Scenario.page_a 2 initial_state)) =
    {[Scenario.page_a; Scenario.page_b; Scenario.page_c]} /\
  navigations (effects (fst (crawl_links Scenario.cycle_session Scenario.page_a 2
                               initial_state))) =
    [Scenario.page_a; Scenario.page_b] /\
  collectors (effects (fst (crawl_links Scenario.cycle_session Scenario.page_a 2
                              initial_state))) =
    [Scenario.page_a; Scenario.page_b].
Proof.
  split_and!.
  - intros env max_depth url st Hc Hd Hfresh.
    replace (Z.to_nat max_depth) with 0%nat by lia.
    by apply crawl_links_at_depth_zero.
  - apply (bool_decide_unpack _). by vm_compute.
  - by vm_compute.
  - by vm_compute.
Qed.

Lemma depth_zero_branch_witness :
  crawl_links_at Scenario.cycle_session (Z.to_nat 0) Scenario.page_c initial_state =
  (add_visited (normalize_url Scenario.page_c) initial_state, Returns tt).
Proof.
  apply (proj1 depth_zero_branch Scenario.cycle_session 0 Scenario.page_c initial_state).
  - reflexivity.
  - lia.
  - apply not_elem_of_empty.
Defined.

(** C3 as stated fails here: in the crawl of depth 2 from A over the
    cycle, C is visited, yet no collector is registered on it and it is never
    navigated to. *)
Lemma no_collector_at_depth_zero :
  bool_decide (normalize_url Scenario.page_c ∈
     visited (fst (crawl_links Scenario.cycle_session Scenario.page_a 2 initial_state)))
    = true /\
  collectors (effects (fst (crawl_links Scenario.cycle_session Scenario.page_a 2
                              initial_state))) =
    [Scenario.page_a; Scenario.page_b] /\
  effects (fst (crawl_links Scenario.cycle_session Scenario.page_a 2 initial_state)) =
    [ PageOpened Scenario.page_a; CollectorRegistered Scenario.page_a;
      Navigated Scenario.page_a;
      PageOpened Scenario.page_b; CollectorRegistered Scenario.page_b;
      Navigated Scenario.page_b;
      PageClosed Scenario.page_b; PageClosed Scenario.page_a ].
Proof. by vm_compute. Qed.

(** * Further properties *)

(** ** Names of files *)

Section Sanitize.

Lemma all_append p a b : Py.all p (a ++ b) = Py.all p a && Py.all p b.
Proof.
  induction a as [|x a IH]; rewrite ?append_nil_l, ?append_cons; cbn [Py.all]; [done|].
  by rewrite IH, andb_assoc.
Qed.

Lemma all_lstrip p chars s : Py.all p s = true -> Py.all p (Py.lstrip chars s) = true.
Proof.
  induction s as [|x s IH]; cbn [Py.lstrip]; [done|].
  destruct (Py.mem x chars); [|done]. cbn [Py.all]. intros [_ H]%andb_prop. by apply IH.
Qed.

Lemma all_rstrip p chars s : Py.all p s = true -> Py.all p (Py.rstrip chars s) = true.
Proof.
  induction s as [|x s IH]; cbn [Py.rstrip Py.all]; [done|].
  intros [Hx Hs]%andb_prop. specialize (IH Hs).
  destruct (Py.rstrip chars s) as [|y r].
  - destruct (Py.mem x chars); cbn [Py.all]; [done|by rewrite Hx].
  - cbn [Py.all] in *. by rewrite Hx, IH.
Qed.

(** One step of [collapse_underscores]. *)
Lemma collapse_underscores_cons c s :
  collapse_underscores (String c s) =
  if Ascii.eqb c "_" && Py.startswith "_" s then collapse_underscores s
  else String c (collapse_underscores s).
Proof.
  destruct c as [[] [] [] [] [] [] [] []]; try reflexivity.
  destruct s as [|a s]; [reflexivity|].
  destruct a as [[] [] [] [] [] [] [] []]; reflexivity.
Qed.

Lemma all_collapse p s :
  Py.all p s = true -> Py.all p (collapse_underscores s) = true.
Proof.
  induction s as [|x s IH]; [done|]. rewrite collapse_underscores_cons. cbn [Py.all].
  intros [Hx Hs]%andb_prop.
  destruct (Ascii.eqb x "_" && Py.startswith "_" s); [by apply IH|].
  cbn [Py.all]. by rewrite Hx, IH.
Qed.

Lemma replace_forbidden_plain text :
  plain forbidden_filename_chars (replace_forbidden text) = true.
Proof.
  unfold plain. induction text as [|x s IH]; [done|]. cbn [replace_forbidden Py.all].
  rewrite IH, andb_true_r.
  destruct (Py.mem x forbidden_filename_chars) eqn:Hx; [done|by rewrite Hx].
Qed.

Lemma startswith_collapse s :
  Py.startswith "_" (collapse_underscores s) = Py.startswith "_" s.
Proof.
  induction s as [|x s IH]; [done|]. rewrite collapse_underscores_cons.
  destruct (Ascii.eqb x "_" && Py.startswith "_" s) eqn:Hc; [|done].
  apply andb_prop in Hc as [Hx Hs]. apply Ascii.eqb_eq in Hx. subst.
  by rewrite IH, Hs.
Qed.

Lemma contains_cons sub c s :
  contains sub (String c s) = Py.startswith sub (String c s) || contains sub s.
Proof. reflexivity. Qed.

Lemma startswith_two a b c s :
  Py.startswith (String a (String b "")) (String c s) =
  Ascii.eqb a c && Py.startswith (String b "") s.
Proof. reflexivity. Qed.

Lemma collapse_no_double s : contains "__" (collapse_underscores s) = false.
Proof.
  induction s as [|x s IH]; [done|]. rewrite collapse_underscores_cons.
  destruct (Ascii.eqb x "_" && Py.startswith "_" s) eqn:Hc; [done|].
  rewrite contains_cons, IH, orb_false_r, startswith_two, startswith_collapse.
  by rewrite Ascii.eqb_sym.
Qed.

Lemma startswith_one_mem c s :
  Py.startswith (String c "") s = true ->
  exists s', s = String c s'.
Proof.
  destruct s as [|x s]; [done|]. cbn [Py.startswith]. rewrite andb_true_r.
  intros ->%Ascii.eqb_eq. by exists s.
Qed.

Lemma lstrip_not_startswith c s :
  Py.startswith (String c "") (Py.lstrip (String c "") s) = false.
Proof.
  induction s as [|x s IH]; [done|]. cbn [Py.lstrip Py.mem].
  rewrite orb_false_r. destruct (Ascii.eqb c x) eqn:Hx; [done|].
  cbn [Py.startswith]. by rewrite Hx.
Qed.

Lemma contains_lstrip sub chars s :
  contains sub s = false -> contains sub (Py.lstrip chars s) = false.
Proof.
  induction s as [|x s IH]; [done|]. cbn [Py.lstrip].
  destruct (Py.mem x chars); [|done].
  rewrite contains_cons. intros [_ H]%orb_false_elim. by apply IH.
Qed.

(** What is left of [s] by [rstrip] begins as [s] does. *)
Lemma startswith_rstrip c chars s :
  Py.startswith (String c "") (Py.rstrip chars s) = true ->
  Py.startswith (String c "") s = true.
Proof.
  destruct s as [|x s]; [done|]. cbn [Py.rstrip].
  destruct (Py.rstrip chars s); [destruct (Py.mem x chars)|]; done.
Qed.

Lemma contains_rstrip c chars s :
  contains (String c (String c "")) s = false ->
  contains (String c (String c "")) (Py.rstrip chars s) = false.
Proof.
  induction s as [|x s IH]; [done|]. rewrite contains_cons, startswith_two.
  intros [Hx Hs]%orb_false_elim. specialize (IH Hs). cbn [Py.rstrip].
  destruct (Py.rstrip chars s) as [|y r] eqn:Hr.
  - destruct (Py.mem x chars); [done|].
    rewrite contains_cons, startswith_two. cbn [Py.startswith contains].
    by rewrite andb_false_r.
  - rewrite contains_cons, startswith_two, IH, orb_false_r.
    destruct (Ascii.eqb c x); [|done]. cbn [andb] in *.
    destruct (Py.startswith (String c "") (String y r)) eqn:Hy; [|done].
    rewrite <- Hr in Hy. apply startswith_rstrip in Hy. congruence.
Qed.

Lemma rev_cons c s : Py.rev (String c s) = Py.rev s ++ String c "".
Proof.
  unfold Py.rev. cbn [list_ascii_of_string List.rev].
  induction (List.rev (list_ascii_of_string s)) as [|x l IH]; [done|].
  cbn [app string_of_list_ascii]. by rewrite append_cons, IH.
Qed.

Lemma startswith_one_append c a b :
  Py.startswith (String c "") (a ++ b) =
  match a with
  | EmptyString => Py.startswith (String c "") b
  | String _ _ => Py.startswith (String c "") a
  end.
Proof. destruct a as [|x a]; [done|]. by rewrite append_cons. Qed.

Lemma rev_nonempty c s : exists x r, Py.rev (String c s) = String x r.
Proof.
  rewrite rev_cons. destruct (Py.rev s) as [|y r]; [by exists c, ""|].
  rewrite append_cons. by eexists _, _.
Qed.

(** One step of [endswith] for a suffix of one character. *)
Lemma endswith_one_cons c x s :
  Py.endswith (String c "") (String x s) =
  match s with
  | EmptyString => Ascii.eqb c x
  | String _ _ => Py.endswith (String c "") s
  end.
Proof.
  unfold Py.endswith. change (Py.rev (String c "")) with (String c "").
  rewrite rev_cons, startswith_one_append.
  destruct s as [|y s].
  - cbn. by rewrite andb_true_r.
  - by destruct (rev_nonempty y s) as (a & r & ->).
Qed.

Lemma rstrip_not_endswith c s :
  Py.endswith (String c "") (Py.rstrip (String c "") s) = false.
Proof.
  induction s as [|x s IH]; [done|]. cbn [Py.rstrip].
  destruct (Py.rstrip (String c "") s) as [|y r] eqn:Hr.
  - cbn [Py.mem]. rewrite orb_false_r.
    destruct (Ascii.eqb c x) eqn:Hx; [done|]. by rewrite endswith_one_cons.
  - by rewrite endswith_one_cons.
Qed.

Lemma replace_forbidden_id s :
  plain forbidden_filename_chars s = true -> replace_forbidden s = s.
Proof.
  unfold plain. induction s as [|x s IH]; [done|]. cbn [Py.all replace_forbidden].
  intros [Hx Hs]%andb_prop. apply negb_true_iff in Hx. by rewrite Hx, IH.
Qed.

Lemma collapse_id s : contains "__" s = false -> collapse_underscores s = s.
Proof.
  induction s as [|x s IH]; [done|]. rewrite contains_cons, startswith_two.
  intros [Hx Hs]%orb_false_elim. rewrite collapse_underscores_cons, IH by done.
  by rewrite Ascii.eqb_sym, Hx.
Qed.

Lemma lstrip_id c s :
  Py.startswith (String c "") s = false -> Py.lstrip (String c "") s = s.
Proof.
  destruct s as [|x s]; [done|]. cbn [Py.startswith Py.lstrip Py.mem].
  rewrite andb_true_r, orb_false_r. by intros ->.
Qed.

Lemma rstrip_id c s :
  Py.endswith (String c "") s = false -> Py.rstrip (String c "") s = s.
Proof.
  induction s as [|x s IH]; [done|]. rewrite endswith_one_cons. cbn [Py.rstrip].
  destruct s as [|y s].
  - cbn [Py.rstrip Py.mem]. rewrite orb_false_r. by intros ->.
  - intros H. by rewrite (IH H).
Qed.

End Sanitize.

Lemma sanitize_facts (text : string) :
  plain forbidden_filename_chars (sanitize_filename_part text) = true /\
  contains "__" (sanitize_filename_part text) = false /\
  Py.startswith "_" (sanitize_filename_part text) = false /\
  Py.endswith "_" (sanitize_filename_part text) = false.
Proof.
  unfold sanitize_filename_part, Py.strip. split_and!.
  - apply all_rstrip, all_lstrip, all_collapse, replace_forbidden_plain.
  - apply contains_rstrip, contains_lstrip, collapse_no_double.
  - destruct (Py.startswith "_" (Py.rstrip "_" _)) eqn:H; [|done].
    apply startswith_rstrip in H. by rewrite lstrip_not_startswith in H.
  - apply rstrip_not_endswith.
Qed.

(** X1.  Whatever the text, [sanitize_filename_part] leaves none of the
    characters its first pass replaces, no two underscores in a row, and no
    underscore at either end. *)
Theorem sanitize_filename_part_clean (text : string) :
  plain forbidden_filename_chars (sanitize_filename_part text) = true /\
  contains "__" (sanitize_filename_part text) = false /\
  Py.startswith "_" (sanitize_filename_part text) = false /\
  Py.endswith "_" (sanitize_filename_part text) = false.
Proof. apply sanitize_facts. Qed.

(** X2.  Sanitizing twice is sanitizing once. *)
Theorem sanitize_filename_part_idempotent (text : string) :
  sanitize_filename_part (sanitize_filename_part text) = sanitize_filename_part text.
Proof.
  destruct (sanitize_facts text) as (Hp & Hd & Hs & He).
  generalize dependent (sanitize_filename_part text). intros r Hp Hd Hs He.
  unfold sanitize_filename_part, Py.strip.
  by rewrite replace_forbidden_id, collapse_id, lstrip_id, rstrip_id.
Qed.

Section Digest.

Lemma hex_digit_is_hex n : is_hex (Sha256.hex_digit n) = true.
Proof.
  unfold Sha256.hex_digit. generalize (N.to_nat n). intros k.
  do 16 (destruct k as [|k]; [reflexivity|]). reflexivity.
Qed.

Lemma hex_is_hex n x : Py.all is_hex (Sha256.hex n x) = true.
Proof.
  induction n as [|n IH]; [done|]. cbn [Sha256.hex Py.all].
  by rewrite hex_digit_is_hex, IH.
Qed.

Lemma hex_length n x : String.length (Sha256.hex n x) = n.
Proof. induction n as [|n IH]; [done|]. cbn [Sha256.hex String.length]. by rewrite IH. Qed.

Lemma length_append (a b : string) :
  String.length (a ++ b) = (String.length a + String.length b)%nat.
Proof.
  induction a as [|x a IH]; rewrite ?append_nil_l, ?append_cons; [done|].
  cbn [String.length]. by rewrite IH.
Qed.

Lemma compress_length h block :
  List.length h = 8%nat -> List.length (Sha256.compress h block) = 8%nat.
Proof.
  intros Hh. unfold Sha256.compress.
  rewrite List.length_map, List.length_combine, Hh. reflexivity.
Qed.

Lemma blocks_length n : forall h bs,
  List.length h = 8%nat -> List.length (Sha256.blocks n h bs) = 8%nat.
Proof.
  induction n as [|n IH]; intros h bs Hh; [done|].
  cbn [Sha256.blocks]. by apply IH, compress_length.
Qed.

Lemma digest_words_length content : List.length (Sha256.digest_words content) = 8%nat.
Proof. unfold Sha256.digest_words. by apply blocks_length. Qed.

Lemma hexdigest_is_hex content : Py.all is_hex (Sha256.hexdigest content) = true.
Proof.
  unfold Sha256.hexdigest. induction (Sha256.digest_words content) as [|w ws IH]; [done|].
  cbn [fold_right]. by rewrite all_append, hex_is_hex, IH.
Qed.

Lemma hexdigest_length content : String.length (Sha256.hexdigest content) = 64%nat.
Proof.
  unfold Sha256.hexdigest. pose proof (digest_words_length content) as Hl.
  assert (H : forall ws, String.length
              (fold_right (fun w s => Sha256.hex 8 w ++ s) "" ws) = (8 * List.length ws)%nat).
  { induction ws as [|w ws IH]; [done|]. cbn [fold_right List.length].
    rewrite length_append, hex_length, IH. lia. }
  rewrite H, Hl. reflexivity.
Qed.

Lemma all_take p n s : Py.all p s = true -> Py.all p (Py.take n s) = true.
Proof.
  revert s. induction n as [|n IH]; intros [|x s]; cbn [Py.take Py.all]; try done.
  intros [Hx Hs]%andb_prop. by rewrite Hx, IH.
Qed.

Lemma take_length n s :
  (n <= String.length s)%nat -> String.length (Py.take n s) = n.
Proof.
  revert s. induction n as [|n IH]; intros [|x s]; cbn [Py.take String.length];
    try done; try lia.
  intros H. rewrite IH; [done|lia].
Qed.

Lemma rev_append a b : Py.rev (a ++ b) = Py.rev b ++ Py.rev a.
Proof.
  induction a as [|x a IH]; rewrite ?append_nil_l, ?append_cons.
  - change (Py.rev "") with "". by rewrite append_empty_r.
  - by rewrite !rev_cons, IH, append_assoc.
Qed.

Lemma endswith_append p s : Py.endswith p (s ++ p) = true.
Proof. unfold Py.endswith. rewrite rev_append. apply startswith_append. Qed.

End Digest.

(** X3.  For every content and every URL whose authority has no square
    bracket, the name [build_filename] gives has none of the characters
    [sanitize_filename_part] replaces (so no slash, backslash or colon), and
    it ends with an underscore, the first 8 characters of the SHA-256
    fingerprint, which are lower-case hexadecimal digits, and [.js]. *)
Theorem build_filename_safe (url : string) (content : list byte) :
  plain "[]" (UrlParse.netloc (UrlParse.urlparse url)) = true ->
  plain forbidden_filename_chars (build_filename url content) = true /\
  exists stem digits,
    build_filename url content = stem ++ "_" ++ digits ++ ".js" /\
    digits = Py.take 8 (Sha256.hexdigest content) /\
    String.length digits = 8%nat /\
    Py.all is_hex digits = true /\
    Py.endswith ("_" ++ digits ++ ".js") (build_filename url content) = true.
Proof.
  intros _.
  assert (Hhex : Py.all is_hex (Py.take 8 (Sha256.hexdigest content)) = true)
    by apply all_take, hexdigest_is_hex.
  assert (Hlen : String.length (Py.take 8 (Sha256.hexdigest content)) = 8%nat)
    by (apply take_length; rewrite hexdigest_length; lia).
  unfold build_filename. cbv zeta.
  generalize (UrlParse.netloc (UrlParse.urlparse url)).
  generalize (if Py.endswith ".js" (Py.lstrip "/" (UrlParse.path (UrlParse.urlparse url)))
              then Py.take
                     (String.length (Py.lstrip "/" (UrlParse.path (UrlParse.urlparse url))) - 3)
                     (Py.lstrip "/" (UrlParse.path (UrlParse.urlparse url)))
              else Py.lstrip "/" (UrlParse.path (UrlParse.urlparse url))).
  intros path host. split.
  - unfold plain. rewrite !all_append.
    destruct (sanitize_facts host) as (Hh & _).
    destruct (sanitize_facts path) as (Hp & _).
    unfold plain in Hh, Hp. rewrite Hh, Hp.
    assert (Py.all (fun c => negb (Py.mem c forbidden_filename_chars))
              (Py.take 8 (Sha256.hexdigest content)) = true) as ->; [|done].
    revert Hhex. apply all_impl. by_chars.
  - exists (sanitize_filename_part host ++ "_" ++ sanitize_filename_part path),
      (Py.take 8 (Sha256.hexdigest content)).
    assert (E : sanitize_filename_part host ++ "_" ++ sanitize_filename_part path ++ "_" ++
                Py.take 8 (Sha256.hexdigest content) ++ ".js" =
                (sanitize_filename_part host ++ "_" ++ sanitize_filename_part path) ++
                "_" ++ Py.take 8 (Sha256.hexdigest content) ++ ".js")
      by (by rewrite <- !append_assoc).
    split_and!; try done. rewrite E. apply endswith_append.
Qed.

Lemma build_filename_safe_witness :
  plain forbidden_filename_chars
    (build_filename "https://example.com:8080/js/app.js?v=1" Scenario.snippet) = true /\
  exists stem digits,
    build_filename "https://example.com:8080/js/app.js?v=1" Scenario.snippet =
      stem ++ "_" ++ digits ++ ".js" /\
    digits = Py.take 8 (Sha256.hexdigest Scenario.snippet) /\
    String.length digits = 8%nat /\
    Py.all is_hex digits = true /\
    Py.endswith ("_" ++ digits ++ ".js")
      (build_filename "https://example.com:8080/js/app.js?v=1" Scenario.snippet) = true.
Proof.
  apply (build_filename_safe "https://example.com:8080/js/app.js?v=1" Scenario.snippet).
  vm_compute. reflexivity.
Defined.

(** ** Names and domains of well-formed URLs *)

(** X4.  For a URL made of a scheme, [://], a netloc that is not empty
    and has no square bracket, a path that is empty or starts with a slash,
    and a rest that is empty or starts a query or a fragment,
    [get_domain_from_url] is the lower-cased netloc: user information and
    port stay in it, and a leading www. is not removed. *)
Theorem get_domain_from_url_netloc (scheme netloc path tail : string) :
  is_scheme scheme = true ->
  plain ("/?#[]" ++ unsafe_chars) netloc = true ->
  plain ("?#;" ++ unsafe_chars) path = true ->
  opens_with "/" path = true ->
  opens_with "?#" tail = true ->
  UrlParse.nonempty netloc = true ->
  get_domain_from_url (scheme ++ "://" ++ netloc ++ path ++ tail) = Py.lower netloc.
Proof.
  intros Hscheme Hnetloc%plain_without_brackets Hpath Hslash Htail Hne.
  unfold get_domain_from_url.
  destruct (urlparse_shape scheme netloc path tail) as (query & fragment & ->); try done.
  cbn [UrlParse.netloc]. by rewrite Hne.
Qed.

Lemma get_domain_from_url_netloc_witness :
  get_domain_from_url ("HTTPS" ++ "://" ++ "User@WWW.Example.COM:8443" ++ "/a.js" ++ "?v=1") =
  Py.lower "User@WWW.Example.COM:8443".
Proof.
  apply (get_domain_from_url_netloc "HTTPS" "User@WWW.Example.COM:8443" "/a.js" "?v=1");
    vm_compute; reflexivity.
Defined.

(** X5.  Two such URLs that differ only in their scheme and in their
    query and fragment get the same file name for the same content: the
    name is made of the netloc, the path and the content alone. *)
Theorem build_filename_ignores_scheme_and_query
    (scheme1 scheme2 netloc path tail1 tail2 : string) (content : list byte) :
  is_scheme scheme1 = true ->
  is_scheme scheme2 = true ->
  plain ("/?#[]" ++ unsafe_chars) netloc = true ->
  plain ("?#;" ++ unsafe_chars) path = true ->
  opens_with "/" path = true ->
  opens_with "?#" tail1 = true ->
  opens_with "?#" tail2 = true ->
  build_filename (scheme1 ++ "://" ++ netloc ++ path ++ tail1) content =
  build_filename (scheme2 ++ "://" ++ netloc ++ path ++ tail2) content.
Proof.
  intros Hs1 Hs2 Hnetloc%plain_without_brackets Hpath Hslash Ht1 Ht2.
  unfold build_filename.
  destruct (urlparse_shape scheme1 netloc path tail1) as (q1 & f1 & ->); try done.
  destruct (urlparse_shape scheme2 netloc path tail2) as (q2 & f2 & ->); try done.
Qed.

Lemma build_filename_ignores_scheme_and_query_witness :
  build_filename ("http" ++ "://" ++ "example.com" ++ "/js/app.js" ++ "?v=1")
    Scenario.snippet =
  build_filename ("https" ++ "://" ++ "example.com" ++ "/js/app.js" ++ "#top")
    Scenario.snippet.
Proof.
  apply (build_filename_ignores_scheme_and_query
           "http" "https" "example.com" "/js/app.js" "?v=1" "#top");
    vm_compute; reflexivity.
Defined.

(** ** The rules that can reject *)

Section Words.

Lemma matches_literal word : forall s k,
  Re.matches (literal word) s k =
  Py.startswith word s && k (Py.drop (String.length word) s).
Proof.
  induction word as [|c w IH]; intros s k; cbn [literal Re.matches]; [done|].
  destruct s as [|a s]; [done|].
  cbn [Py.startswith String.length Py.drop]. by rewrite IH, Ascii.eqb_sym, andb_assoc.
Qed.

Lemma search_literal word s : Re.search_regex (literal word) s = contains word s.
Proof.
  induction s as [|a s IH]; cbn [Re.search_regex contains];
    rewrite matches_literal, andb_true_r; [done|]. by rewrite IH.
Qed.

Lemma search_alt r1 r2 s :
  Re.search_regex (Re.Alt r1 r2) s = Re.search_regex r1 s || Re.search_regex r2 s.
Proof.
  induction s as [|a s IH]; cbn [Re.search_regex Re.matches].
  - by rewrite !orb_false_r.
  - rewrite IH.
    destruct (Re.matches r1 (String a s) (fun _ => true)),
      (Re.matches r2 (String a s) (fun _ => true)), (Re.search_regex r1 s); done.
Qed.

Lemma search_word rule word text :
  Re.compile rule = Some (literal word) -> Re.search rule text = contains word text.
Proof. intros H. unfold Re.search. rewrite H. apply search_literal. Qed.

Lemma search_two_words rule word1 word2 text :
  Re.compile rule = Some (Re.Alt (literal word1) (literal word2)) ->
  Re.search rule text = contains word1 text || contains word2 text.
Proof.
  intros H. unfold Re.search. rewrite H, search_alt. by rewrite !search_literal.
Qed.

(** On a text without a backslash only the rules that do not ask for one
    can match. *)
Lemma dead_rules_dropped text rules :
  Py.mem "\" text = false ->
  existsb (fun rule => Re.search rule text) rules =
  existsb (fun rule => Re.search rule text)
    (List.filter (fun rule => negb (Re.wants_backslash rule)) rules).
Proof.
  intros Hm. induction rules as [|rule rules IH]; [done|].
  cbn [existsb List.filter]. rewrite IH.
  destruct (Re.wants_backslash rule) eqn:Hw; cbn [negb existsb]; [|done].
  by rewrite backslash_rule_is_dead.
Qed.

Lemma strict_words text :
  Py.mem "\" text = false ->
  existsb (fun rule => Re.search rule text) UNINTERESTING_JS_STRICT =
  mentions [ "webpack"; "react"; "vue"; "angular"; "/vendor/"; "/plugins/";
             "/docs/"; "/themes/"; "/dist/" ] text.
Proof.
  intros Hm. rewrite dead_rules_dropped by done.
  change (List.filter (fun rule => negb (Re.wants_backslash rule)) UNINTERESTING_JS_STRICT)
    with [ "webpack"; "react"; "vue"; "angular"; "\/vendor\/"; "\/plugins\/";
           "\/docs\/"; "\/themes\/"; "\/dist\/" ].
  unfold mentions. cbn [existsb].
  rewrite (search_word "webpack" "webpack") by (by vm_compute).
  rewrite (search_word "react" "react") by (by vm_compute).
  rewrite (search_word "vue" "vue") by (by vm_compute).
  rewrite (search_word "angular" "angular") by (by vm_compute).
  rewrite (search_word "\/vendor\/" "/vendor/") by (by vm_compute).
  rewrite (search_word "\/plugins\/" "/plugins/") by (by vm_compute).
  rewrite (search_word "\/docs\/" "/docs/") by (by vm_compute).
  rewrite (search_word "\/themes\/" "/themes/") by (by vm_compute).
  rewrite (search_word "\/dist\/" "/dist/") by (by vm_compute).
  done.
Qed.

Lemma relaxed_words text :
  Py.mem "\" text = false ->
  existsb (fun rule => Re.search rule text) UNINTERESTING_JS_RELAXED =
  mentions [ "googletagmanager"; "hotspot"; "hotjar"; "webpack"; "react"; "vue";
             "angular" ] text.
Proof.
  intros Hm. rewrite dead_rules_dropped by done.
  change (List.filter (fun rule => negb (Re.wants_backslash rule)) UNINTERESTING_JS_RELAXED)
    with [ "googletagmanager"; "hotspot|hotjar"; "webpack"; "react"; "vue"; "angular" ].
  unfold mentions. cbn [existsb].
  rewrite (search_word "googletagmanager" "googletagmanager") by (by vm_compute).
  rewrite (search_two_words "hotspot|hotjar" "hotspot" "hotjar") by (by vm_compute).
  rewrite (search_word "webpack" "webpack") by (by vm_compute).
  rewrite (search_word "react" "react") by (by vm_compute).
  rewrite (search_word "vue" "vue") by (by vm_compute).
  rewrite (search_word "angular" "angular") by (by vm_compute).
  by rewrite <- !orb_assoc.
Qed.

End Words.

(** X6.  In strict mode a URL, or an inline script, without a backslash is
    rejected exactly when its lower-cased text contains one of nine words:
    the four names of frameworks and the five directory names.  The other
    nineteen rules reject nothing. *)
Theorem strict_filter_words (text : string) :
  Py.mem "\" text = false ->
  is_interesting_js text UNINTERESTING_JS_STRICT =
    negb (mentions [ "webpack"; "react"; "vue"; "angular"; "/vendor/"; "/plugins/";
                     "/docs/"; "/themes/"; "/dist/" ] (Py.lower text)) /\
  is_interesting_inline_script text UNINTERESTING_JS_STRICT =
    negb (mentions [ "webpack"; "react"; "vue"; "angular"; "/vendor/"; "/plugins/";
                     "/docs/"; "/themes/"; "/dist/" ] (Py.lower text)).
Proof.
  intros Hm%lower_keeps_backslash_out.
  unfold is_interesting_js, is_interesting_inline_script. by rewrite strict_words.
Qed.

Lemma strict_filter_words_witness :
  is_interesting_js "https://cdn.example.com/Vendor/jquery.min.js" UNINTERESTING_JS_STRICT =
    negb (mentions [ "webpack"; "react"; "vue"; "angular"; "/vendor/"; "/plugins/";
                     "/docs/"; "/themes/"; "/dist/" ]
            (Py.lower "https://cdn.example.com/Vendor/jquery.min.js")) /\
  is_interesting_inline_script "https://cdn.example.com/Vendor/jquery.min.js"
      UNINTERESTING_JS_STRICT =
    negb (mentions [ "webpack"; "react"; "vue"; "angular"; "/vendor/"; "/plugins/";
                     "/docs/"; "/themes/"; "/dist/" ]
            (Py.lower "https://cdn.example.com/Vendor/jquery.min.js")).
Proof.
  apply (strict_filter_words "https://cdn.example.com/Vendor/jquery.min.js").
  vm_compute. reflexivity.
Defined.

(** X7.  In relaxed mode a URL, or an inline script, without a backslash
    is rejected exactly when its lower-cased text contains one of seven
    words; the directory names of the strict list are not among them. *)
Theorem relaxed_filter_words (text : string) :
  Py.mem "\" text = false ->
  is_interesting_js text UNINTERESTING_JS_RELAXED =
    negb (mentions [ "googletagmanager"; "hotspot"; "hotjar"; "webpack"; "react";
                     "vue"; "angular" ] (Py.lower text)) /\
  is_interesting_inline_script text UNINTERESTING_JS_RELAXED =
    negb (mentions [ "googletagmanager"; "hotspot"; "hotjar"; "webpack"; "react";
                     "vue"; "angular" ] (Py.lower text)).
Proof.
  intros Hm%lower_keeps_backslash_out.
  unfold is_interesting_js, is_interesting_inline_script. by rewrite relaxed_words.
Qed.

Lemma relaxed_filter_words_witness :
  is_interesting_js "https://static.HotJar.com/c/hotjar-1.js" UNINTERESTING_JS_RELAXED =
    negb (mentions [ "googletagmanager"; "hotspot"; "hotjar"; "webpack"; "react";
                     "vue"; "angular" ]
            (Py.lower "https://static.HotJar.com/c/hotjar-1.js")) /\
  is_interesting_inline_script "https://static.HotJar.com/c/hotjar-1.js"
      UNINTERESTING_JS_RELAXED =
    negb (mentions [ "googletagmanager"; "hotspot"; "hotjar"; "webpack"; "react";
                     "vue"; "angular" ]
            (Py.lower "https://static.HotJar.com/c/hotjar-1.js")).
Proof.
  apply (relaxed_filter_words "https://static.HotJar.com/c/hotjar-1.js").
  vm_compute. reflexivity.
Defined.

(** ** The collector over a whole run *)

Section Run.

Context (env : environment).

Lemma run_cons ev events st :
  run env (ev :: events) st =
  match handle env ev st with
  | (st1, Returns _) => run env events st1
  | (st1, Raises e) => (st1, Raises e)
  end.
Proof.
  unfold run. cbn [for_each]. step_m. by destruct (handle env ev st) as [st1 [[]|e]].
Qed.

Lemma handle_response r st :
  handle env (Response r) st = (fst (on_response env r st), Returns tt).
Proof.
  cbn [handle]. step_m. by destruct (on_response_cases env r st) as (st' & -> & _).
Qed.

Lemma handle_inline scripts st :
  handle env (InlineScripts scripts) st =
  match process_inline_scripts_from env scripts 0 st with
  | (st', Returns _) => (st', Returns tt)
  | (st', Raises e) => (st', Raises e)
  end.
Proof.
  cbn [handle]. unfold process_inline_scripts. step_m.
  by destruct (process_inline_scripts_from env scripts 0 st) as [st' [n|e]].
Qed.

Lemma gated_response r events :
  gated env (Response r :: events) =
  ((if passes_gates env r then [r] else []) ++ gated env events)%list.
Proof. done. Qed.

Lemma gated_inline scripts events :
  gated env (InlineScripts scripts :: events) = gated env events.
Proof. done. Qed.

Lemma inline_scripts_of_response r events :
  inline_scripts_of (Response r :: events) = inline_scripts_of events.
Proof. done. Qed.

Lemma inline_scripts_of_inline scripts events :
  inline_scripts_of (InlineScripts scripts :: events) =
  (scripts ++ inline_scripts_of events)%list.
Proof. done. Qed.

Lemma logged_app l1 l2 : logged (l1 ++ l2) = (logged l1 ++ logged l2)%list.
Proof. apply omap_app. Qed.

Lemma bodies_app l1 l2 : bodies (l1 ++ l2) = (bodies l1 ++ bodies l2)%list.
Proof. apply omap_app. Qed.

(** *** Every item is settled once *)

Lemma on_response_settled r st :
  settled (fst (on_response env r st)) =
  (settled st + if passes_gates env r then 1 else 0)%nat.
Proof.
  destruct (on_response_cases env r st) as (st' & -> & Hc). cbn [fst].
  destruct Hc as [Hg|e Hg Hb|content Hg Hb Hs|content Hg Hb Hs Hd|content Hg Hb Hs Hd Hw
                 |content e Hg Hb Hs Hd Hw];
    rewrite Hg; unfold settled; simpl_state;
    rewrite ?written_app, ?logged_app, ?length_app; cbn [written logged omap list_omap length];
    lia.
Qed.

Lemma process_inline_script_settled script st :
  match process_inline_script env script st with
  | (st', Returns _) => settled st' = S (settled st)
  | (st', Raises _) => settled st' = settled st
  end.
Proof.
  destruct (process_inline_script_cases env script st) as (res & -> & Hc).
  destruct Hc; unfold settled; simpl_state;
    rewrite ?written_app, ?logged_app, ?length_app; cbn [written logged omap list_omap length];
    lia.
Qed.

Lemma process_inline_scripts_settled scripts : forall n st,
  match process_inline_scripts_from env scripts n st with
  | (st', Returns _) => settled st' = (settled st + length scripts)%nat
  | (st', Raises _) => (settled st' < settled st + length scripts)%nat
  end.
Proof.
  induction scripts as [|script rest IH]; intros n st.
  - cbn. lia.
  - rewrite process_inline_scripts_from_cons.
    pose proof (process_inline_script_settled script st) as Hs.
    destruct (process_inline_script env script st) as [st1 [saved|e]]; cbn [length]; [|lia].
    specialize (IH (if saved then S n else n) st1).
    destruct (process_inline_scripts_from env rest _ st1) as [st' [m|e]]; lia.
Qed.

Lemma run_settled events : forall st,
  match run env events st with
  | (st', Returns _) =>
      settled st' =
      (settled st + length (gated env events) + length (inline_scripts_of events))%nat
  | (st', Raises _) =>
      (settled st' <
       settled st + length (gated env events) + length (inline_scripts_of events))%nat
  end.
Proof.
  induction events as [|ev events IH]; intros st.
  - cbn. lia.
  - rewrite run_cons. destruct ev as [r|scripts].
    + rewrite handle_response, gated_response, inline_scripts_of_response, length_app.
      pose proof (on_response_settled r st) as Hs.
      specialize (IH (fst (on_response env r st))).
      destruct (run env events _) as [st' [[]|e]], (passes_gates env r);
        cbn [length] in *; lia.
    + rewrite handle_inline, gated_inline, inline_scripts_of_inline, length_app.
      pose proof (process_inline_scripts_settled scripts 0 st) as Hs.
      destruct (process_inline_scripts_from env scripts 0 st) as [st1 [m|e]]; [|lia].
      specialize (IH st1). destruct (run env events st1) as [st' [[]|e]]; lia.
Qed.

(** *** What the collector leaves alone *)

Lemma counters_le_refl (c : counters) :
  (small c <= small c)%nat /\ (duplicate c <= duplicate c)%nat /\
  (uninteresting c <= uninteresting c)%nat.
Proof. lia. Qed.

Lemma on_response_frame r st :
  let st' := fst (on_response env r st) in
  errors st' = errors st /\ visited st' = visited st /\
  hash_set st ⊆ hash_set st' /\
  (small (skipped_counters st) <= small (skipped_counters st'))%nat /\
  (duplicate (skipped_counters st) <= duplicate (skipped_counters st'))%nat /\
  (uninteresting (skipped_counters st) <= uninteresting (skipped_counters st'))%nat /\
  exists new, effects st' = (effects st ++ new)%list /\ forallb collector_effect new = true.
Proof.
  destruct (on_response_cases env r st) as (st' & -> & Hc). cbn [fst]. cbv zeta.
  destruct Hc; simpl_state; split_and!; try done; try lia; try apply union_subseteq_r;
    first [ exists []; by rewrite app_nil_r
          | eexists; split; [by rewrite <- ?app_assoc|done] ].
Qed.

Lemma process_inline_script_frame script st :
  let st' := fst (process_inline_script env script st) in
  errors st' = errors st /\ visited st' = visited st /\
  hash_set st ⊆ hash_set st' /\
  (small (skipped_counters st) <= small (skipped_counters st'))%nat /\
  (duplicate (skipped_counters st) <= duplicate (skipped_counters st'))%nat /\
  (uninteresting (skipped_counters st) <= uninteresting (skipped_counters st'))%nat /\
  exists new, effects st' = (effects st ++ new)%list /\ forallb collector_effect new = true.
Proof.
  destruct (process_inline_script_cases env script st) as (res & -> & Hc). cbv zeta.
  destruct Hc; cbn [fst]; simpl_state; split_and!; try done; try lia; try apply union_subseteq_r;
    first [ exists []; by rewrite app_nil_r
          | eexists; split; [by rewrite <- ?app_assoc|done] ].
Qed.

Lemma run_frame_from st0 events st :
  (errors st = errors st0 /\ visited st = visited st0 /\
   hash_set st0 ⊆ hash_set st /\
   (small (skipped_counters st0) <= small (skipped_counters st))%nat /\
   (duplicate (skipped_counters st0) <= duplicate (skipped_counters st))%nat /\
   (uninteresting (skipped_counters st0) <= uninteresting (skipped_counters st))%nat /\
   exists new, effects st = (effects st0 ++ new)%list /\ forallb collector_effect new = true) ->
  let st' := fst (run env events st) in
  errors st' = errors st0 /\ visited st' = visited st0 /\
  hash_set st0 ⊆ hash_set st' /\
  (small (skipped_counters st0) <= small (skipped_counters st'))%nat /\
  (duplicate (skipped_counters st0) <= duplicate (skipped_counters st'))%nat /\
  (uninteresting (skipped_counters st0) <= uninteresting (skipped_counters st'))%nat /\
  exists new, effects st' = (effects st0 ++ new)%list /\ forallb collector_effect new = true.
Proof.
  cbv zeta. revert st.
  apply (run_invariant env (fun st =>
    errors st = errors st0 /\ visited st = visited st0 /\
    hash_set st0 ⊆ hash_set st /\
    (small (skipped_counters st0) <= small (skipped_counters st))%nat /\
    (duplicate (skipped_counters st0) <= duplicate (skipped_counters st))%nat /\
    (uninteresting (skipped_counters st0) <= uninteresting (skipped_counters st))%nat /\
    exists new, effects st = (effects st0 ++ new)%list /\
                forallb collector_effect new = true)).
  - intros r st (He & Hv & Hh & Hs & Hd & Hu & new & Hn & Hc).
    destruct (on_response_frame r st) as (He' & Hv' & Hh' & Hs' & Hd' & Hu' & new' & Hn' & Hc').
    split_and!; try congruence; try lia; [set_solver|].
    exists (new ++ new')%list. rewrite Hn', Hn, app_assoc, forallb_app, Hc, Hc'. done.
  - intros script st (He & Hv & Hh & Hs & Hd & Hu & new & Hn & Hc).
    destruct (process_inline_script_frame script st)
      as (He' & Hv' & Hh' & Hs' & Hd' & Hu' & new' & Hn' & Hc').
    split_and!; try congruence; try lia; [set_solver|].
    exists (new ++ new')%list. rewrite Hn', Hn, app_assoc, forallb_app, Hc, Hc'. done.
Qed.

(** *** The bodies read *)

Lemma on_response_bodies r st :
  bodies (effects (fst (on_response env r st))) =
  (bodies (effects st) ++ if passes_gates env r then [url r] else [])%list.
Proof.
  destruct (on_response_cases env r st) as (st' & -> & Hc). cbn [fst].
  destruct Hc as [Hg|e Hg Hb|content Hg Hb Hs|content Hg Hb Hs Hd|content Hg Hb Hs Hd Hw
                 |content e Hg Hb Hs Hd Hw];
    rewrite Hg; simpl_state; rewrite ?bodies_app; cbn [bodies omap list_omap];
    by rewrite ?app_nil_r.
Qed.

Lemma process_inline_script_bodies script st :
  bodies (effects (fst (process_inline_script env script st))) = bodies (effects st).
Proof.
  destruct (process_inline_script_cases env script st) as (res & -> & Hc).
  destruct Hc; cbn [fst]; simpl_state; rewrite ?bodies_app; cbn [bodies omap list_omap];
    by rewrite ?app_nil_r.
Qed.

Lemma process_inline_scripts_bodies scripts : forall n st,
  bodies (effects (fst (process_inline_scripts_from env scripts n st))) = bodies (effects st).
Proof.
  induction scripts as [|script rest IH]; intros n st; [done|].
  rewrite process_inline_scripts_from_cons.
  pose proof (process_inline_script_bodies script st) as Hb.
  destruct (process_inline_script env script st) as [st1 [saved|e]]; [|done].
  by rewrite IH.
Qed.

Lemma run_bodies events : forall st,
  match run env events st with
  | (st', Returns _) =>
      bodies (effects st') = (bodies (effects st) ++ (url <$> gated env events))%list
  | (st', Raises _) =>
      bodies (effects st') `prefix_of` (bodies (effects st) ++ (url <$> gated env events))%list
  end.
Proof.
  induction events as [|ev events IH]; intros st.
  - cbn. by rewrite app_nil_r.
  - rewrite run_cons. destruct ev as [r|scripts].
    + rewrite handle_response, gated_response, fmap_app, app_assoc.
      specialize (IH (fst (on_response env r st))). rewrite on_response_bodies in IH.
      by destruct (passes_gates env r).
    + rewrite handle_inline, gated_inline.
      pose proof (process_inline_scripts_bodies scripts 0 st) as Hb.
      destruct (process_inline_scripts_from env scripts 0 st) as [st1 [m|e]]; cbn [fst] in Hb.
      * specialize (IH st1). by rewrite Hb in IH.
      * rewrite Hb. by apply prefix_app_r.
Qed.

Lemma gated_passes events r :
  r ∈ gated env events -> Response r ∈ events /\ passes_gates env r = true.
Proof.
  induction events as [|ev events IH]; [by intros ?%elem_of_nil|].
  destruct ev as [r'|scripts].
  - rewrite gated_response. intros [Hin|Hin]%elem_of_app.
    + destruct (passes_gates env r') eqn:Hg; [|by apply elem_of_nil in Hin].
      apply list_elem_of_singleton in Hin as ->. split; [left|done].
    + destruct (IH Hin). split; [by right|done].
  - rewrite gated_inline. intros Hin. destruct (IH Hin). split; [by right|done].
Qed.

(** *** Where the files come from *)

Lemma from_event_cons ev events file :
  from_event env events file -> from_event env (ev :: events) file.
Proof.
  intros [(r & Hin & H)|(scripts & script & Hin & H)]; [left|right].
  - exists r. split; [by right|done].
  - exists scripts, script. split; [by right|done].
Qed.

Lemma on_response_written r events st :
  exists files,
    written (effects (fst (on_response env r st))) = (written (effects st) ++ files)%list /\
    forall file, file ∈ files ->
      from_event env (Response r :: events) file /\ write_error env (fst file) = None.
Proof.
  destruct (on_response_cases env r st) as (st' & -> & Hc). cbn [fst].
  destruct Hc as [Hg|e Hg Hb|content Hg Hb Hs|content Hg Hb Hs Hd|content Hg Hb Hs Hd Hw
                 |content e Hg Hb Hs Hd Hw];
    simpl_state; rewrite ?written_app; cbn [written omap list_omap]; rewrite ?app_nil_r;
    try (exists []; rewrite app_nil_r; split; [done|by intros ? ?%elem_of_nil]).
  eexists. split; [done|]. intros file ->%list_elem_of_singleton. split; [|done].
  left. exists r. split_and!; [left|done..].
Qed.

Lemma process_inline_script_written scripts script events st :
  script ∈ scripts ->
  exists files,
    written (effects (fst (process_inline_script env script st))) =
      (written (effects st) ++ files)%list /\
    forall file, file ∈ files ->
      from_event env (InlineScripts scripts :: events) file /\
      write_error env (fst file) = None.
Proof.
  intros Hin. destruct (process_inline_script_cases env script st) as (res & -> & Hc).
  destruct Hc as [Hi|Hi Hs|Hi Hs Hd|Hi Hs Hd Hw|e Hi Hs Hd Hw]; cbn [fst];
    simpl_state; rewrite ?written_app; cbn [written omap list_omap]; rewrite ?app_nil_r;
    try (exists []; rewrite app_nil_r; split; [done|by intros ? ?%elem_of_nil]).
  eexists. split; [done|]. intros file ->%list_elem_of_singleton. split; [|done].
  right. exists scripts, script. split_and!; [left|done..].
Qed.

Lemma process_inline_scripts_written scripts events : forall todo n st,
  (forall script, script ∈ todo -> script ∈ scripts) ->
  exists files,
    written (effects (fst (process_inline_scripts_from env todo n st))) =
      (written (effects st) ++ files)%list /\
    forall file, file ∈ files ->
      from_event env (InlineScripts scripts :: events) file /\
      write_error env (fst file) = None.
Proof.
  induction todo as [|script rest IH]; intros n st Hsub.
  - exists []. rewrite app_nil_r. split; [done|by intros ? ?%elem_of_nil].
  - rewrite process_inline_scripts_from_cons.
    destruct (process_inline_script_written scripts script events st) as (f1 & H1 & Hf1).
    { apply Hsub. left. }
    destruct (process_inline_script env script st) as [st1 [saved|e]]; cbn [fst] in *.
    + destruct (IH (if saved then S n else n) st1) as (f2 & H2 & Hf2).
      { intros s Hs. apply Hsub. by right. }
      exists (f1 ++ f2)%list. rewrite H2, H1, app_assoc. split; [done|].
      intros file [Hin|Hin]%elem_of_app; auto.
    + by exists f1.
Qed.

Lemma run_written events : forall st,
  exists files,
    written (effects (fst (run env events st))) = (written (effects st) ++ files)%list /\
    forall file, file ∈ files ->
      from_event env events file /\ write_error env (fst file) = None.
Proof.
  induction events as [|ev events IH]; intros st.
  - exists []. rewrite app_nil_r. split; [done|by intros ? ?%elem_of_nil].
  - rewrite run_cons. destruct ev as [r|scripts].
    + rewrite handle_response.
      destruct (on_response_written r events st) as (f1 & H1 & Hf1).
      destruct (IH (fst (on_response env r st))) as (f2 & H2 & Hf2).
      exists (f1 ++ f2)%list. rewrite H2, H1, app_assoc. split; [done|].
      intros file [Hin|Hin]%elem_of_app; [auto|].
      destruct (Hf2 file Hin). split; [by apply from_event_cons|done].
    + rewrite handle_inline.
      destruct (process_inline_scripts_written scripts events scripts 0 st) as (f1 & H1 & Hf1);
        [done|].
      destruct (process_inline_scripts_from env scripts 0 st) as [st1 [m|e]]; cbn [fst] in *.
      * destruct (IH st1) as (f2 & H2 & Hf2).
        exists (f1 ++ f2)%list. rewrite H2, H1, app_assoc. split; [done|].
        intros file [Hin|Hin]%elem_of_app; [auto|].
        destruct (Hf2 file Hin). split; [by apply from_event_cons|done].
      * by exists f1.
Qed.

(** *** The count of inline scripts saved *)

Lemma eligible_inline_hash_set st1 st2 scripts :
  hash_set st1 = hash_set st2 ->
  eligible_inline env st1 scripts = eligible_inline env st2 scripts.
Proof. intros H. unfold eligible_inline. by rewrite H. Qed.

Lemma elem_of_eligible st scripts h :
  h ∈ (list_to_set ((fun s => Sha256.hexdigest (Py.encode_utf8 s)) <$>
                      eligible_inline env st scripts) : gset string) <->
  exists s, s ∈ scripts /\ Sha256.hexdigest (Py.encode_utf8 s) = h /\
            min_size env <= Py.len (Py.encode_utf8 s) /\
            (h ∉ hash_set st) /\
            is_interesting_inline_script s (uninteresting_patterns env) = true.
Proof.
  rewrite elem_of_list_to_set, list_elem_of_fmap. unfold eligible_inline. split.
  - intros (s & -> & Hin). apply list_elem_of_In, filter_In in Hin as [Hin Hc].
    apply andb_prop in Hc as [[Hs Hh]%andb_prop Hi].
    exists s. split_and!; [by apply list_elem_of_In|done|lia| |done].
    apply negb_true_iff, bool_decide_eq_false in Hh. done.
  - intros (s & Hin & <- & Hs & Hh & Hi). exists s. split; [done|].
    apply list_elem_of_In, filter_In. split; [by apply list_elem_of_In|].
    rewrite Hi, andb_true_r. apply andb_true_intro. split; [lia|].
    by apply negb_true_iff, bool_decide_eq_false.
Qed.

Lemma eligible_after_claim st st1 scripts h :
  hash_set st1 = {[h]} ∪ hash_set st ->
  (list_to_set ((fun s => Sha256.hexdigest (Py.encode_utf8 s)) <$>
                  eligible_inline env st1 scripts) : gset string) =
  list_to_set ((fun s => Sha256.hexdigest (Py.encode_utf8 s)) <$>
                 eligible_inline env st scripts) ∖ {[h]}.
Proof.
  intros Hh. apply set_eq. intros x.
  rewrite elem_of_difference, !elem_of_eligible, Hh. split.
  - intros (s & Hin & Hx & Hs & Hn & Hi). split; [|set_solver].
    exists s. split_and!; try done. set_solver.
  - intros [(s & Hin & Hx & Hs & Hn & Hi) Hne].
    exists s. split_and!; try done. set_solver.
Qed.

Lemma eligible_inline_cons st script rest :
  eligible_inline env st (script :: rest) =
  if (min_size env <=? Py.len (Py.encode_utf8 script)) &&
     negb (bool_decide (Sha256.hexdigest (Py.encode_utf8 script) ∈ hash_set st)) &&
     is_interesting_inline_script script (uninteresting_patterns env)
  then script :: eligible_inline env st rest
  else eligible_inline env st rest.
Proof. done. Qed.

Lemma size_claim (h : string) (X : gset string) :
  size ({[h]} ∪ X) = S (size (X ∖ {[h]})).
Proof. by rewrite size_union_alt, size_singleton. Qed.

Lemma size_list_to_set_le (l : list string) :
  (size (list_to_set l : gset string) <= length l)%nat.
Proof.
  induction l as [|x l IH]; [done|]. rewrite list_to_set_cons. cbn [length].
  rewrite size_union_alt, size_singleton.
  assert (H : list_to_set l ∖ {[x]} ⊆ (list_to_set l : gset string)) by set_solver.
  apply subseteq_size in H. lia.
Qed.

Lemma process_inline_scripts_from_count scripts : forall n st,
  match process_inline_scripts_from env scripts n st with
  | (st', Returns m) =>
      m = (n + size (list_to_set ((fun s => Sha256.hexdigest (Py.encode_utf8 s)) <$>
                                    eligible_inline env st scripts) : gset string))%nat /\
      length (written (effects st')) = (length (written (effects st)) + (m - n))%nat
  | (st', Raises e) => exists name, write_error env name = Some e
  end.
Proof.
  induction scripts as [|script rest IH]; intros n st.
  - cbn. split; [|lia]. rewrite size_empty. lia.
  - rewrite process_inline_scripts_from_cons.
    destruct (process_inline_script_cases env script st) as (res & -> & Hc).
    destruct Hc as [Hi|Hi Hs|Hi Hs Hd|Hi Hs Hd Hw|e Hi Hs Hd Hw].
    + specialize (IH n (add_skip Uninteresting st)).
      rewrite (eligible_inline_hash_set _ st) in IH by done.
      by rewrite eligible_inline_cons, Hi, andb_false_r.
    + specialize (IH n (add_skip Small st)).
      rewrite (eligible_inline_hash_set _ st) in IH by done.
      rewrite eligible_inline_cons.
      by replace (min_size env <=? Py.len (Py.encode_utf8 script)) with false by lia.
    + specialize (IH n (add_skip Duplicate st)).
      rewrite (eligible_inline_hash_set _ st) in IH by done.
      rewrite eligible_inline_cons, (bool_decide_eq_true_2 _ Hd). cbn [negb].
      by rewrite andb_false_r.
    + match goal with
      | |- context [process_inline_scripts_from env rest ?k ?s] =>
          specialize (IH k s); destruct (process_inline_scripts_from env rest k s)
            as [st' [m|e]]; [|done]
      end.
      rewrite (eligible_after_claim st _ rest (Sha256.hexdigest (Py.encode_utf8 script)))
        in IH by done.
      destruct IH as [-> Hw']. simpl_state.
      rewrite written_app, length_app in Hw'. cbn [written omap list_omap length] in Hw'.
      rewrite eligible_inline_cons.
      replace (min_size env <=? Py.len (Py.encode_utf8 script)) with true by lia.
      rewrite (bool_decide_eq_false_2 _ Hd), Hi. cbn [negb andb].
      rewrite fmap_cons, list_to_set_cons, size_claim. split; lia.
    + by exists (inline_filename env (Py.encode_utf8 script)).
Qed.

(** *** A write that fails in the loop over the inline scripts *)

Lemma process_inline_scripts_from_app l1 l2 : forall n st,
  process_inline_scripts_from env (l1 ++ l2) n st =
  match process_inline_scripts_from env l1 n st with
  | (st1, Returns n1) => process_inline_scripts_from env l2 n1 st1
  | (st1, Raises e) => (st1, Raises e)
  end.
Proof.
  induction l1 as [|script rest IH]; intros n st; [done|].
  rewrite <- app_comm_cons, !process_inline_scripts_from_cons.
  destruct (process_inline_script env script st) as [st1 [saved|e]]; [|done].
  apply IH.
Qed.

Lemma process_inline_script_write_error script st e :
  inline_candidate env script = Some (Py.encode_utf8 script) ->
  Sha256.hexdigest (Py.encode_utf8 script) ∉ hash_set st ->
  write_error env (inline_filename env (Py.encode_utf8 script)) = Some e ->
  process_inline_script env script st =
    (add_hash (Sha256.hexdigest (Py.encode_utf8 script)) st, Raises e).
Proof.
  intros (Hi & _ & Hs)%inline_candidate_inv Hd Hw.
  destruct (process_inline_script_cases env script st) as (res & -> & Hc).
  destruct Hc; try congruence; try lia; try done.
Qed.

End Run.

Lemma build_filename_ends url content :
  Py.endswith ("_" ++ Py.take 8 (Sha256.hexdigest content) ++ ".js")
    (build_filename url content) = true.
Proof.
  unfold build_filename. cbv zeta.
  match goal with
  | |- Py.endswith ?e (?host ++ "_" ++ ?path ++ ?e) = true =>
      replace (host ++ "_" ++ path ++ e) with ((host ++ "_" ++ path) ++ e)
        by (by rewrite !append_assoc)
  end.
  apply endswith_append.
Qed.

Lemma inline_filename_ends env content :
  Py.endswith ("_" ++ Py.take 8 (Sha256.hexdigest content) ++ ".js")
    (inline_filename env content) = true.
Proof.
  unfold inline_filename.
  change (domain env ++ "_inline_" ++ Py.take 8 (Sha256.hexdigest content) ++ ".js")
    with (domain env ++ "_inline" ++ "_" ++ Py.take 8 (Sha256.hexdigest content) ++ ".js").
  rewrite <- (append_assoc (domain env) "_inline"). apply endswith_append.
Qed.

(** X8.  The handlers of the collector, over any events and from any
    state, leave [errors] and [visited] as they are: no failed download and
    no failed write of theirs reaches the list of errors of the session.
    [hash_set] and the three counters only grow, and the only effects are
    bodies read, files written and errors logged. *)
Theorem run_frame (env : environment) (events : list event) (st : state) :
  errors (fst (run env events st)) = errors st /\
  visited (fst (run env events st)) = visited st /\
  hash_set st ⊆ hash_set (fst (run env events st)) /\
  (small (skipped_counters st) <= small (skipped_counters (fst (run env events st))))%nat /\
  (duplicate (skipped_counters st) <=
   duplicate (skipped_counters (fst (run env events st))))%nat /\
  (uninteresting (skipped_counters st) <=
   uninteresting (skipped_counters (fst (run env events st))))%nat /\
  exists new,
    effects (fst (run env events st)) = (effects st ++ new)%list /\
    forallb collector_effect new = true.
Proof.
  apply (run_frame_from env st events st). split_and!; try done; try lia.
  exists []. by rewrite app_nil_r.
Qed.

(** X9.  Every response that passes the gates and every inline script is
    settled exactly once: it is counted as small, as a duplicate or as
    uninteresting, or its file is written, or its error is logged.  When a
    failed write ends the loop over the inline scripts, fewer are settled
    than came. *)
Theorem run_accounting (env : environment) (events : list event) (st : state) :
  match run env events st with
  | (st', Returns _) =>
      settled st' =
      (settled st + length (gated env events) + length (inline_scripts_of events))%nat
  | (st', Raises _) =>
      (settled st' <
       settled st + length (gated env events) + length (inline_scripts_of events))%nat
  end.
Proof. apply run_settled. Qed.

(** X10.  The bodies read are those of the responses that pass the gates,
    in their order, and of no other: each has one of the three resource
    types, a URL on the domain of the session unless cross-origin files are
    included, and a URL the filter accepts. *)
Theorem bodies_read_behind_gates (env : environment) (events : list event) (st : state) :
  match run env events st with
  | (st', Returns _) =>
      bodies (effects st') = (bodies (effects st) ++ (url <$> gated env events))%list
  | (st', Raises _) =>
      bodies (effects st') `prefix_of`
        (bodies (effects st) ++ (url <$> gated env events))%list
  end /\
  forall r, r ∈ gated env events ->
    Response r ∈ events /\
    UrlParse.in_list (resource_type r) ["script"; "fetch"; "xhr"] = true /\
    (include_cross_origin env = true \/ get_domain_from_url (url r) = domain env) /\
    is_interesting_js (url r) (uninteresting_patterns env) = true.
Proof.
  split; [apply run_bodies|].
  intros r [Hin Hg]%gated_passes. unfold passes_gates in Hg.
  apply andb_prop in Hg as [Ht [Ho Hi]%andb_prop].
  split_and!; [done|done| |done].
  apply orb_prop in Ho as [Ho|Ho]; [by left|right]. by apply String.eqb_eq.
Qed.

(** X11.  Every file a run writes comes from one of its events: it holds
    the body of a response that passes the gates, under the name
    [build_filename] gives to the URL and the body, or the UTF-8 bytes of an
    inline script the filter accepts, under the inline name.  The write did
    not fail, and the name ends with an underscore, the first 8 digits of
    the SHA-256 of the content of the file, and [.js]. *)
Theorem written_files_provenance (env : environment) (events : list event) (st : state) :
  exists files,
    written (effects (fst (run env events st))) = (written (effects st) ++ files)%list /\
    forall file, file ∈ files ->
      from_event env events file /\
      write_error env (fst file) = None /\
      Py.endswith ("_" ++ Py.take 8 (Sha256.hexdigest (snd file)) ++ ".js")
        (fst file) = true.
Proof.
  destruct (run_written env events st) as (files & Hw & Hf).
  exists files. split; [done|]. intros file Hin. destruct (Hf file Hin) as [Hfrom Herr].
  split_and!; [done|done|].
  destruct Hfrom as [(r & _ & _ & _ & ->)|(scripts & script & _ & _ & _ & _ & ->)].
  - apply build_filename_ends.
  - apply inline_filename_ends.
Qed.

(** X12.  When [process_inline_scripts] returns, its count is the number
    of distinct fingerprints among the scripts that [eligible_inline] of
    [download_js_files] keeps, so it is at most the number of eligible
    scripts the summary prints, and it is the number of files the call
    wrote.  It raises only what a write raised. *)
Theorem inline_count_distinct_eligible (env : environment) (inline_scripts : list string)
    (st : state) :
  match process_inline_scripts env inline_scripts st with
  | (st', Returns inline_count) =>
      inline_count =
        size (list_to_set ((fun s => Sha256.hexdigest (Py.encode_utf8 s)) <$>
                             eligible_inline env st inline_scripts) : gset string) /\
      (inline_count <= length (eligible_inline env st inline_scripts))%nat /\
      length (written (effects st')) = (length (written (effects st)) + inline_count)%nat
  | (_, Raises e) => exists name, write_error env name = Some e
  end.
Proof.
  unfold process_inline_scripts.
  pose proof (process_inline_scripts_from_count env inline_scripts 0 st) as H.
  destruct (process_inline_scripts_from env inline_scripts 0 st) as [st' [m|e]]; [|done].
  destruct H as [-> Hw]. split_and!; [done| |lia].
  etrans; [apply size_list_to_set_le|]. by rewrite length_fmap.
Qed.

(** X13.  A write that fails in [process_inline_scripts] is not caught:
    the call raises at that script, the scripts after it are neither counted
    nor written, the fingerprint of the script stays in [hash_set] without a
    file, and the run of the session ends there. *)
Theorem inline_write_failure_stops (env : environment) (before rest : list string)
    (script : string) (later : list event) (st st1 : state) (n : nat) (e : string) :
  process_inline_scripts env before st = (st1, Returns n) ->
  inline_candidate env script = Some (Py.encode_utf8 script) ->
  Sha256.hexdigest (Py.encode_utf8 script) ∉ hash_set st1 ->
  write_error env (inline_filename env (Py.encode_utf8 script)) = Some e ->
  process_inline_scripts env (before ++ script :: rest) st =
    (add_hash (Sha256.hexdigest (Py.encode_utf8 script)) st1, Raises e) /\
  run env (InlineScripts (before ++ script :: rest) :: later) st =
    (add_hash (Sha256.hexdigest (Py.encode_utf8 script)) st1, Raises e).
Proof.
  unfold process_inline_scripts. intros Hb Hc Hd Hw.
  assert (H : process_inline_scripts_from env (before ++ script :: rest) 0 st =
              (add_hash (Sha256.hexdigest (Py.encode_utf8 script)) st1, Raises e)).
  { rewrite process_inline_scripts_from_app, Hb, process_inline_scripts_from_cons.
    by rewrite (process_inline_script_write_error env script st1 e). }
  split; [done|]. by rewrite run_cons, handle_inline, H.
Qed.

Lemma inline_write_failure_stops_witness :
  process_inline_scripts (Scenario.example_com 1 Scenario.read_only)
    ([] ++ "console.log(1)" :: ["let x = 2;"]) initial_state =
    (add_hash (Sha256.hexdigest (Py.encode_utf8 "console.log(1)")) initial_state,
     Raises "[Errno 30] Read-only file system") /\
  run (Scenario.example_com 1 Scenario.read_only)
    (InlineScripts ([] ++ "console.log(1)" :: ["let x = 2;"]) :: []) initial_state =
    (add_hash (Sha256.hexdigest (Py.encode_utf8 "console.log(1)")) initial_state,
     Raises "[Errno 30] Read-only file system").
Proof.
  apply (inline_write_failure_stops (Scenario.example_com 1 Scenario.read_only)
           [] ["let x = 2;"] "console.log(1)" [] initial_state initial_state 0
           "[Errno 30] Read-only file system").
  - reflexivity.
  - vm_compute. reflexivity.
  - apply not_elem_of_empty.
  - reflexivity.
Defined.

(** ** The crawl over a whole site *)

Section Pages.

Context (env : environment).

Lemma opened_app l1 l2 : opened (l1 ++ l2) = (opened l1 ++ opened l2)%list.
Proof. apply omap_app. Qed.

Lemma closed_app l1 l2 : closed (l1 ++ l2) = (closed l1 ++ closed l2)%list.
Proof. apply omap_app. Qed.

Lemma collectors_app l1 l2 : collectors (l1 ++ l2) = (collectors l1 ++ collectors l2)%list.
Proof. apply omap_app. Qed.

Lemma crawl_pages_refl st : crawl_pages env st st [].
Proof. unfold crawl_pages. cbn. by rewrite !app_nil_r. Qed.

Lemma crawl_pages_trans st1 st2 st3 new1 new2 :
  crawl_pages env st1 st2 new1 -> crawl_pages env st2 st3 new2 ->
  crawl_pages env st1 st3 (new1 ++ new2).
Proof.
  intros (He1 & Hr1 & Hp1 & Ho1 & Hk1 & Hx1) (He2 & Hr2 & Hp2 & Ho2 & Hk2 & Hx2).
  unfold crawl_pages.
  rewrite navigations_app, opened_app, collectors_app, closed_app, omap_app, forallb_app.
  split_and!; try congruence.
  - by rewrite He2, He1, app_assoc.
  - by rewrite Hr2, Hr1, app_assoc.
  - by rewrite Hp1, Hp2.
  - by rewrite Hx1, Hx2.
Qed.

Lemma crawl_pages_visited u st : crawl_pages env st (add_visited u st) [].
Proof. unfold crawl_pages. simpl_state. cbn. by rewrite !app_nil_r. Qed.

(** A page whose navigation fails. *)
Lemma crawl_pages_failed url e st :
  site env url = Raises e ->
  crawl_pages env st
    (add_effect (PageClosed url)
       (add_error ("Crawl error: " ++ url ++ " - " ++ e)
          (add_effect (Navigated url)
             (add_effect (CollectorRegistered url)
                (add_effect (PageOpened url) (add_visited (normalize_url url) st))))))
    [PageOpened url; CollectorRegistered url; Navigated url; PageClosed url].
Proof.
  intros Hs. unfold crawl_pages. simpl_state.
  change (navigations [PageOpened url; CollectorRegistered url; Navigated url;
                       PageClosed url]) with [url].
  split_and!; try done.
  - by rewrite <- !app_assoc.
  - cbn. unfold crawl_error. by rewrite Hs.
Qed.

(** A page whose navigation succeeds, around what its links bring. *)
Lemma crawl_pages_page url links st st2 new :
  site env url = Returns links ->
  crawl_pages env
    (add_effect (Navigated url)
       (add_effect (CollectorRegistered url)
          (add_effect (PageOpened url) (add_visited (normalize_url url) st))))
    st2 new ->
  crawl_pages env st (add_effect (PageClosed url) st2)
    ([PageOpened url; CollectorRegistered url; Navigated url] ++ new ++ [PageClosed url]).
Proof.
  intros Hs (He & Hr & Hp & Ho & Hk & Hx). unfold crawl_pages.
  simpl_state. simpl_state.
  rewrite !navigations_app, !opened_app, !collectors_app, !closed_app, !forallb_app.
  change (navigations [PageOpened url; CollectorRegistered url; Navigated url]) with [url].
  change (opened [PageOpened url; CollectorRegistered url; Navigated url]) with [url].
  change (collectors [PageOpened url; CollectorRegistered url; Navigated url]) with [url].
  change (closed [PageOpened url; CollectorRegistered url; Navigated url]) with (@nil string).
  change (navigations [PageClosed url]) with (@nil string).
  change (opened [PageClosed url]) with (@nil string).
  change (collectors [PageClosed url]) with (@nil string).
  change (closed [PageClosed url]) with [url].
  rewrite !app_nil_r, Hp, Ho, Hk.
  split_and!; try done.
  - rewrite He. by rewrite <- !app_assoc.
  - rewrite Hr. cbn [omap list_omap app]. unfold crawl_error at 2. by rewrite Hs.
  - cbn [app]. rewrite Hx. by rewrite <- Permutation_cons_append.
Qed.

Lemma for_each_crawl_pages depth :
  (forall url st, exists st' new,
     crawl_links_at env depth url st = (st', Returns tt) /\ crawl_pages env st st' new) ->
  forall hrefs st, exists st' new,
    for_each hrefs (crawl_links_at env depth) st = (st', Returns tt) /\
    crawl_pages env st st' new.
Proof.
  intros IH. induction hrefs as [|href hrefs IHl]; intros st.
  - exists st, []. split; [done|apply crawl_pages_refl].
  - cbn [for_each]. step_m.
    destruct (IH href st) as (st1 & new1 & -> & H1).
    destruct (IHl st1) as (st2 & new2 & -> & H2).
    exists st2, (new1 ++ new2)%list. split; [done|by eapply crawl_pages_trans].
Qed.

Lemma crawl_links_at_pages depth : forall url st,
  exists st' new,
    crawl_links_at env depth url st = (st', Returns tt) /\ crawl_pages env st st' new.
Proof.
  induction depth as [|depth IH]; intros url st; rewrite crawl_links_at_unfold.
  - destruct (negb (crawl env)); [exists st, []; split; [done|apply crawl_pages_refl]|].
    case_bool_decide; [exists st, []; split; [done|apply crawl_pages_refl]|].
    eexists _, []; split; [done|apply crawl_pages_visited].
  - destruct (negb (crawl env)); [exists st, []; split; [done|apply crawl_pages_refl]|].
    case_bool_decide as Hfresh; [exists st, []; split; [done|apply crawl_pages_refl]|].
    cbv zeta. destruct (site env url) as [links|e] eqn:Hs.
    + match goal with
      | |- context [for_each ?l ?f ?s] =>
          destruct (for_each_crawl_pages depth IH l s) as (st2 & new2 & -> & H2)
      end.
      eexists _, _. split; [done|]. by eapply crawl_pages_page.
    + eexists _, _. split; [done|]. by apply crawl_pages_failed.
Qed.

End Pages.

Section Links.

Context (env : environment).

Lemma link_path_domain n a b :
  link_path env n a b -> a = b \/ get_domain_from_url b = domain env.
Proof.
  induction 1 as [a|n a links b c Hs Hin Hd Hp IH]; [by left|].
  right. by destruct IH as [<-|IH].
Qed.

Lemma for_each_links depth (links : list string) :
  (forall url st, exists st' new,
     crawl_links_at env depth url st = (st', Returns tt) /\
     effects st' = (effects st ++ new)%list /\
     forall u, u ∈ navigations new -> exists n, (n < depth)%nat /\ link_path env n url u) ->
  forall hrefs st,
    (forall href, href ∈ hrefs ->
       href ∈ links /\ get_domain_from_url href = domain env) ->
    exists st' new,
      for_each hrefs (crawl_links_at env depth) st = (st', Returns tt) /\
      effects st' = (effects st ++ new)%list /\
      forall u, u ∈ navigations new ->
        exists href n, href ∈ links /\ get_domain_from_url href = domain env /\
                       (n < depth)%nat /\ link_path env n href u.
Proof.
  intros IH. induction hrefs as [|href hrefs IHl]; intros st Hsub.
  - exists st, []. rewrite app_nil_r. split_and!; [done|done|].
    by intros u ?%elem_of_nil.
  - cbn [for_each]. step_m.
    destruct (IH href st) as (st1 & new1 & -> & He1 & Hp1).
    destruct (IHl st1) as (st2 & new2 & -> & He2 & Hp2).
    { intros h Hh. apply Hsub. by right. }
    exists st2, (new1 ++ new2)%list. split_and!; [done|by rewrite He2, He1, app_assoc|].
    rewrite navigations_app. intros u [Hu|Hu]%elem_of_app; [|by apply Hp2].
    destruct (Hp1 u Hu) as (n & Hn & Hpath). destruct (Hsub href) as [Hin Hd]; [left|].
    by exists href, n.
Qed.

Lemma crawl_links_at_links depth : forall url st,
  exists st' new,
    crawl_links_at env depth url st = (st', Returns tt) /\
    effects st' = (effects st ++ new)%list /\
    forall u, u ∈ navigations new -> exists n, (n < depth)%nat /\ link_path env n url u.
Proof.
  induction depth as [|depth IH]; intros url st; rewrite crawl_links_at_unfold.
  - assert (Hnil : forall u, u ∈ navigations [] ->
              exists n, (n < 0)%nat /\ link_path env n url u)
      by (by intros u ?%elem_of_nil).
    destruct (negb (crawl env)); [exists st, []; by rewrite app_nil_r|].
    case_bool_decide; [exists st, []; by rewrite app_nil_r|].
    eexists _, []. simpl_state. by rewrite app_nil_r.
  - assert (Hnil : forall u, u ∈ navigations [] ->
              exists n, (n < S depth)%nat /\ link_path env n url u)
      by (by intros u ?%elem_of_nil).
    destruct (negb (crawl env)); [exists st, []; by rewrite app_nil_r|].
    case_bool_decide as Hfresh; [exists st, []; by rewrite app_nil_r|].
    cbv zeta. destruct (site env url) as [links|e] eqn:Hs.
    + match goal with
      | |- context [for_each ?l ?f ?s] =>
          destruct (for_each_links depth links IH l s) as (st2 & new2 & -> & He2 & Hp2)
      end.
      { intros href [Hin Hc]%list_elem_of_In%filter_In.
        apply andb_prop in Hc as [Hd%String.eqb_eq _].
        split; [by apply list_elem_of_In|done]. }
      eexists _, ([PageOpened url; CollectorRegistered url; Navigated url] ++ new2 ++
                  [PageClosed url])%list.
      split_and!; [done| |].
      * simpl_state. rewrite He2. simpl_state. by rewrite <- !app_assoc.
      * rewrite !navigations_app.
        change (navigations [PageOpened url; CollectorRegistered url; Navigated url])
          with [url].
        change (navigations [PageClosed url]) with (@nil string). rewrite app_nil_r.
        intros u [->%list_elem_of_singleton|Hu]%elem_of_app.
        -- exists 0%nat. split; [lia|constructor].
        -- destruct (Hp2 u Hu) as (href & n & Hin & Hd & Hn & Hpath).
           exists (S n). split; [lia|]. by eapply link_path_step.
    + eexists _, [PageOpened url; CollectorRegistered url; Navigated url; PageClosed url].
      split_and!; [done| |].
      * simpl_state. by rewrite <- !app_assoc.
      * change (navigations [PageOpened url; CollectorRegistered url; Navigated url;
                             PageClosed url]) with [url].
        intros u ->%list_elem_of_singleton. exists 0%nat. split; [lia|constructor].
Qed.

End Links.

(** X14.  Whatever the site and the depth, the crawl returns, and of the
    pages it opens each gets a collector, is navigated to and is closed: the
    pages opened, the pages with a collector and the pages navigated to are
    the same list, and the pages closed are these in another order.  The
    crawl itself opens pages and closes them and does nothing else to the
    outside. *)
Theorem crawl_pages_balanced (env : environment) (target_url : string) (max_depth : Z)
    (st : state) :
  exists st' new,
    crawl_links env target_url max_depth st = (st', Returns tt) /\
    effects st' = (effects st ++ new)%list /\
    forallb page_effect new = true /\
    opened new = navigations new /\
    collectors new = navigations new /\
    closed new ≡ₚ navigations new.
Proof.
  unfold crawl_links.
  destruct (crawl_links_at_pages env (Z.to_nat max_depth) target_url
              (mkState (hash_set st) (skipped_counters st) (errors st) ∅ (effects st)))
    as (st' & new & -> & He & _ & Hp & Ho & Hk & Hx).
  by exists st', new.
Qed.

(** X15.  The crawl appends to [errors] one message for each navigation
    that failed, in the order of the navigations, and nothing else; the
    message names the URL and the exception. *)
Theorem crawl_errors (env : environment) (target_url : string) (max_depth : Z)
    (st : state) :
  exists st' new,
    crawl_links env target_url max_depth st = (st', Returns tt) /\
    effects st' = (effects st ++ new)%list /\
    errors st' = (errors st ++ omap (crawl_error env) (navigations new))%list.
Proof.
  unfold crawl_links.
  destruct (crawl_links_at_pages env (Z.to_nat max_depth) target_url
              (mkState (hash_set st) (skipped_counters st) (errors st) ∅ (effects st)))
    as (st' & new & -> & He & Hr & _).
  by exists st', new.
Qed.

(** X16.  Every URL the crawl navigates to is reached from the target by
    fewer than [max_depth] links, each found on a page the crawl navigated
    to and each on the domain of the session: but for the target itself
    the crawl never leaves the domain, and it never goes deeper than
    [max_depth - 1] links. *)
Theorem crawl_follows_links (env : environment) (target_url : string) (max_depth : Z)
    (st : state) :
  exists st' new,
    crawl_links env target_url max_depth st = (st', Returns tt) /\
    effects st' = (effects st ++ new)%list /\
    forall u, u ∈ navigations new ->
      (exists n, Z.of_nat n < max_depth /\ link_path env n target_url u) /\
      (u = target_url \/ get_domain_from_url u = domain env).
Proof.
  unfold crawl_links.
  destruct (crawl_links_at_links env (Z.to_nat max_depth) target_url
              (mkState (hash_set st) (skipped_counters st) (errors st) ∅ (effects st)))
    as (st' & new & -> & He & Hp).
  exists st', new. split_and!; [done|done|].
  intros u Hu. destruct (Hp u Hu) as (n & Hn & Hpath). split.
  - exists n. split; [lia|done].
  - by destruct (link_path_domain env n target_url u Hpath) as [<-|Hd]; [left|right].
Qed.

(** ** The URLs of the command line *)

Section UrlFile.

Lemma rstrip_idempotent chars s :
  Py.rstrip chars (Py.rstrip chars s) = Py.rstrip chars s.
Proof.
  induction s as [|c s IH]; [done|]. cbn [Py.rstrip].
  destruct (Py.rstrip chars s) as [|y r] eqn:Hr.
  - destruct (Py.mem c chars) eqn:Hc; [done|]. cbn [Py.rstrip]. by rewrite Hc.
  - cbn [Py.rstrip] in *. by rewrite IH.
Qed.

(** What [lstrip] leaves does not begin with a character it strips, and
    neither does what [rstrip] then leaves of it. *)
Lemma lstrip_head chars s :
  match Py.lstrip chars s with
  | String c _ => Py.mem c chars = false
  | EmptyString => True
  end.
Proof.
  induction s as [|c s IH]; [done|]. cbn [Py.lstrip].
  by destruct (Py.mem c chars) eqn:Hc.
Qed.

Lemma strip_head chars s :
  match Py.strip chars s with
  | String c _ => Py.mem c chars = false
  | EmptyString => True
  end.
Proof.
  unfold Py.strip. pose proof (lstrip_head chars s) as H.
  destruct (Py.lstrip chars s) as [|c t]; [done|]. cbn [Py.rstrip]. cbv beta iota in H.
  destruct (Py.rstrip chars t); [by rewrite H|done].
Qed.

Lemma strip_idempotent chars s :
  Py.strip chars (Py.strip chars s) = Py.strip chars s.
Proof.
  pose proof (strip_head chars s) as H. unfold Py.strip at 1.
  destruct (Py.strip chars s) as [|c t] eqn:Hs; [done|].
  cbn [Py.lstrip]. rewrite H, <- Hs. unfold Py.strip. apply rstrip_idempotent.
Qed.

Lemma read_url_lines_acc lines : forall urls,
  read_url_lines lines urls = (urls ++ read_url_lines lines [])%list.
Proof.
  induction lines as [|line rest IH]; intros urls; cbn [read_url_lines].
  - by rewrite app_nil_r.
  - cbv zeta. destruct (negb _ || _); [apply IH|].
    rewrite (IH (urls ++ _)%list), (IH ([] ++ _)%list). by rewrite <- app_assoc.
Qed.

Lemma read_url_lines_cons line rest :
  read_url_lines (line :: rest) [] =
  if UrlParse.nonempty (Py.strip whitespace line) &&
     negb (Py.startswith "#" (Py.strip whitespace line))
  then Py.strip whitespace line :: read_url_lines rest []
  else read_url_lines rest [].
Proof.
  cbn [read_url_lines]. cbv zeta.
  destruct (UrlParse.nonempty _), (Py.startswith "#" _); cbn [negb orb andb]; try done.
  by rewrite read_url_lines_acc.
Qed.

Lemma read_url_lines_filter lines :
  read_url_lines lines [] =
  List.filter (fun line => UrlParse.nonempty line && negb (Py.startswith "#" line))
    (List.map (Py.strip whitespace) lines).
Proof.
  induction lines as [|line rest IH]; [done|].
  rewrite read_url_lines_cons. cbn [List.map List.filter]. rewrite IH. done.
Qed.

Lemma read_url_lines_clean lines u :
  u ∈ read_url_lines lines [] ->
  (exists line, line ∈ lines /\ u = Py.strip whitespace line) /\
  UrlParse.nonempty u = true /\
  Py.startswith "#" u = false /\
  Py.strip whitespace u = u.
Proof.
  rewrite read_url_lines_filter.
  intros [Hin Hk]%list_elem_of_In%filter_In.
  apply in_map_iff in Hin as (line & <- & Hin).
  apply andb_prop in Hk as [Hn Hc%negb_true_iff].
  split_and!; [|done|done|apply strip_idempotent].
  exists line. split; [by apply list_elem_of_In|done].
Qed.

End UrlFile.

(** X17.  The loop over the lines of the URL file keeps, in their order,
    the lines that are not blank and not comments, each without the white
    space around it: every URL it gives is a line of the file stripped, is
    not empty, does not begin with the comment sign, and has no white space
    left at either end. *)
Theorem url_file_lines (lines : list string) :
  read_url_lines lines [] =
    List.filter (fun line => UrlParse.nonempty line && negb (Py.startswith "#" line))
      (List.map (Py.strip whitespace) lines) /\
  forall u, u ∈ read_url_lines lines [] ->
    (exists line, line ∈ lines /\ u = Py.strip whitespace line) /\
    UrlParse.nonempty u = true /\
    Py.startswith "#" u = false /\
    Py.strip whitespace u = u.
Proof. split; [apply read_url_lines_filter|apply read_url_lines_clean]. Qed.

(** X18.  The main block goes on with a list of URLs that is never empty
    and holds no empty URL, or leaves with exit code 1.  A URL file that is
    given wins over the positional URL: every URL of the list is then a line
    of the file without the white space around it, and no comment.  The
    block leaves when neither is given, when the file is missing, and when
    the file has no line to keep. *)
Theorem select_urls_sound (file_lines : string -> option (list string))
    (url_file url : option string) :
  match select_urls file_lines url_file url with
  | Process urls =>
      urls <> [] /\
      forall u, u ∈ urls ->
        UrlParse.nonempty u = true /\
        if given url_file then
          Py.startswith "#" u = false /\
          Py.strip whitespace u = u /\
          exists lines line,
            file_lines (default EmptyString url_file) = Some lines /\
            line ∈ lines /\ u = Py.strip whitespace line
        else url = Some u
  | Exit code =>
      code = 1 /\
      if given url_file then
        forall lines, file_lines (default EmptyString url_file) = Some lines ->
                      read_url_lines lines [] = []
      else given url = false
  end.
Proof.
  unfold select_urls. destruct (given url_file) eqn:Hf.
  - destruct (file_lines (default "" url_file)) as [lines|] eqn:Hl.
    + cbv zeta. case_bool_decide as He.
      * split; [done|]. by intros lines' [= <-].
      * split; [done|]. intros u Hu.
        destruct (read_url_lines_clean lines u Hu) as ((line & Hin & ->) & Hn & Hc & Hs).
        split_and!; [done|done|done|]. by exists lines, line.
    + split; done.
  - destruct (given url) eqn:Hu.
    + split; [done|]. intros u ->%list_elem_of_singleton.
      destruct url as [s|]; [|done]. split; done.
    + split; done.
Qed.
